(** * A shallow embedding of the Drive gateway server

    The server stages an uploaded file on local disk with multer, pushes it
    to a remote drive through the googleapis client, and removes the staged
    copy.  The remote client is an interface ([Drive]); the local file system
    is the set of existing paths; every effect of a handler is recorded in a
    chronological trace.  The routes that keep files on the server's own
    disk are modelled apart, on a disk with contents.  The download route,
    which pipes a stream to the response, is left out. *)

From Stdlib Require Import ZArith String Ascii List Lia.
From stdpp Require Import base gmap strings list pretty.

Local Open Scope Z_scope.
Local Open Scope string_scope.

#[local] Set Warnings "-clear-no-such-hyp".

(** ** JavaScript values handled by the server *)

(** Numbers are the integral ones (status codes, clock readings); arrays are
    arrays of strings (the [parents] field of a drive file). *)
Inductive value :=
| VUndefined
| VNull
| VBool (b : bool)
| VNum (n : Z)
| VStr (s : string)
| VArr (l : list string).

#[global] Instance value_eq_dec : EqDecision value.
Proof. solve_decision. Defined.

(** [if (v)], [!v] and [v ? a : b] test truthiness. *)
Definition truthy (v : value) : bool :=
  match v with
  | VUndefined | VNull => false
  | VBool b => b
  | VNum n => negb (Z.eqb n 0)
  | VStr s => negb (String.eqb s "")
  | VArr _ => true
  end.

Fixpoint join_comma (l : list string) : string :=
  match l with
  | [] => ""
  | [s] => s
  | s :: l' => s +:+ "," +:+ join_comma l'
  end.

(** Conversion to string, as done by a template literal [`${v}`] and by
    [v + '-']. *)
Definition to_string (v : value) : string :=
  match v with
  | VUndefined => "undefined"
  | VNull => "null"
  | VBool true => "true"
  | VBool false => "false"
  | VNum n => pretty n
  | VStr s => s
  | VArr l => join_comma l
  end.

(** A parameter declared [p = d] takes [d] when the argument is [undefined]. *)
Definition default_param (v d : value) : value :=
  match v with VUndefined => d | _ => v end.

(** Property read [o.k]: a missing key reads as [undefined]. *)
Definition get_prop (o : gmap string value) (k : string) : value :=
  default VUndefined (o !! k).

(** ** The remote drive client *)

(** [response.data]: an object, whose [files] property, when present, is an
    array of objects. *)
Record data := Data {
  props : gmap string value;
  files : option (list (gmap string value))
}.

Record response := Response { status : Z; rdata : data }.

Record api_error := ApiErr { code : Z; message : string }.

Record resource := Resource {
  name : value;
  mimeType : value;
  parents : option (list value)
}.

(** [body] is the path the read stream was opened on. *)
Record media := Media { media_mimeType : value; body : string }.

Inductive call :=
| FilesCreate (res : resource) (med : option media) (fields : string)
| PermissionsCreate (fileId : value) (role type : string)
| FilesGet (fileId : string) (fields : string)
| FilesUpdate (fileId : string) (res : resource) (med : option media)
    (fields : string)
| FilesDelete (fileId : string)
| FilesList (q : string) (fields : string).

(** [google.drive({ version: 'v3', auth })]: each call either rejects with an
    error or resolves with a response, and moves the remote store on. *)
Class Drive (D : Type) := request : call → D → (api_error + response) * D.

(** ** Effects *)

Inductive error :=
| ApiError (e : api_error)
| ENOENT (path : string)
| UnexpectedField (fieldname : string).

Inductive event :=
| CreateReadStream (path : string)
| Invoke (c : call)
| Settled (r : api_error + response)
| UnlinkSync (path : string)
| ConsoleError (label : string) (e : error)
| Staged (path : string).

Record world (D : Type) := World {
  fs : gset string;
  drive : D;
  trace : list event
}.
Arguments World {D} _ _ _.
Arguments fs {D} _.
Arguments drive {D} _.
Arguments trace {D} _.

(** A computation either throws or returns, and leaves a new world. *)
Definition M (D A : Type) : Type := world D → (error + A) * world D.

Definition ret {D A} (a : A) : M D A := fun w => (inr a, w).

Definition throw {D A} (e : error) : M D A := fun w => (inl e, w).

Definition bind {D A B} (m : M D A) (k : A → M D B) : M D B :=
  fun w =>
    match m w with
    | (inr a, w') => k a w'
    | (inl e, w') => (inl e, w')
    end.

Definition try_catch {D A} (m : M D A) (h : error → M D A) : M D A :=
  fun w =>
    match m w with
    | (inr a, w') => (inr a, w')
    | (inl e, w') => h e w'
    end.

Declare Scope js_scope.
Delimit Scope js_scope with js.
Notation "'let*' x ':=' m 'in' k" := (bind m (fun x => k))
  (at level 10, x name, m at level 100, k at level 200) : js_scope.
Local Open Scope js_scope.

Definition emit {D} (e : event) : M D unit :=
  fun w => (inr tt, World (fs w) (drive w) (trace w ++ [e])).

(** [await drive.<api>(...)]: the call is issued, the task is suspended until
    the promise settles, and a rejection is thrown at the [await]. *)
Definition await {D} `{Drive D} (c : call) : M D response :=
  fun w =>
    let '(r, d') := request c (drive w) in
    let w' := World (fs w) d' (trace w ++ [Invoke c; Settled r]) in
    match r with
    | inr resp => (inr resp, w')
    | inl e => (inl (ApiError e), w')
    end.

(** [fs.createReadStream(p)] opens lazily: nothing is read or checked here. *)
Definition createReadStream {D} (p : string) : M D string :=
  let* _ := emit (CreateReadStream p) in ret p.

(** [fs.unlinkSync(p)] removes [p], or throws when there is no such file. *)
Definition unlinkSync {D} (p : string) : M D unit :=
  fun w =>
    let w' := World (fs w) (drive w) (trace w ++ [UnlinkSync p]) in
    if decide (p ∈ fs w)
    then (inr tt, World (fs w ∖ {[p]}) (drive w) (trace w'))
    else (inl (ENOENT p), w').

Definition console_error {D} (label : string) (e : error) : M D unit :=
  emit (ConsoleError label e).

(** ** The staged file *)

(** [req.file] as multer's disk storage fills it in. *)
Record File := MkFile {
  originalname : string;
  mimetype : string;
  destination : string;
  filename : string;
  path : string
}.

(** ** Google Drive functions *)

Section DriveFunctions.
Context {D : Type} `{Drive D}.

Definition folder_mime : string := "application/vnd.google-apps.folder".

Definition uploadFileToDrive (file : File) (fileType folderId : value)
  : M D data :=
  let folderId := default_param folderId VNull in
  try_catch
    (let fileMetadata :=
       Resource (VStr (originalname file)) fileType
         (Some (if truthy folderId then [folderId] else [])) in
     let* stream := createReadStream (path file) in
     let media := Media fileType stream in
     let* response :=
       await (FilesCreate fileMetadata (Some media) "id, name") in
     let* _ :=
       await (PermissionsCreate (get_prop (props (rdata response)) "id")
                "reader" "anyone") in
     let* _ := unlinkSync (path file) in
     ret (rdata response))
    (fun error =>
       let* _ := console_error "Error uploading file to Drive:" error in
       throw error).

Definition public_link_prefix : string := "https://drive.google.com/uc?id=".

Definition getFileMetadataFromDrive (fileId : string) : M D data :=
  try_catch
    (let* response := await
       (FilesGet fileId
          "id, name, mimeType, webViewLink, webContentLink, parents") in
     let metadata := rdata response in
     let metadata :=
       Data (<["publicDownloadLink" :=
                 VStr (public_link_prefix
                       +:+ to_string (get_prop (props metadata) "id"))]>
               (props metadata))
            (files metadata) in
     ret metadata)
    (fun error =>
       let* _ :=
         console_error "Error getting file metadata from Drive:" error in
       throw error).

Definition updateFileInDrive (fileId : string) (newFile : File)
    (fileType : value) : M D data :=
  try_catch
    (let fileMetadata :=
       Resource (VStr (originalname newFile)) fileType None in
     let* stream := createReadStream (path newFile) in
     let media := Media fileType stream in
     let* response := await
       (FilesUpdate fileId fileMetadata (Some media) "id, name") in
     let* _ := unlinkSync (path newFile) in
     ret (rdata response))
    (fun error =>
       let* _ := console_error "Error updating file in Drive:" error in
       throw error).

Definition deleteFileFromDrive (fileId : string) : M D Z :=
  try_catch
    (let* response := await (FilesDelete fileId) in
     ret (status response))
    (fun error =>
       let* _ := console_error "Error deleting file from Drive:" error in
       throw error).

Definition search_query (fileName : string) : string :=
  "name contains '" +:+ fileName +:+ "'".

Definition searchFileInDrive (fileName : string)
  : M D (option (list (gmap string value))) :=
  try_catch
    (let* response := await
       (FilesList (search_query fileName) "files(id, name, mimeType)") in
     ret (files (rdata response)))
    (fun error =>
       let* _ := console_error "Error searching file in Drive:" error in
       throw error).

Definition list_query (fileType : value) : string :=
  if truthy fileType
  then "mimeType = '" +:+ to_string fileType +:+ "'"
  else "mimeType != 'application/vnd.google-apps.folder'".

Definition getAllFilesFromDrive (fileType : value)
  : M D (option (list (gmap string value))) :=
  let fileType := default_param fileType VNull in
  try_catch
    (let query := list_query fileType in
     let* response := await
       (FilesList query
          "files(id, name, mimeType, webViewLink, webContentLink)") in
     ret (files (rdata response)))
    (fun error =>
       let* _ := console_error "Error getting all files from Drive:" error in
       throw error).

Definition getAllFoldersFromDrive
  : M D (option (list (gmap string value))) :=
  try_catch
    (let* response := await
       (FilesList "mimeType = 'application/vnd.google-apps.folder'"
          "files(id, name)") in
     ret (files (rdata response)))
    (fun error =>
       let* _ :=
         console_error "Error getting all folders from Drive:" error in
       throw error).

Definition createFolderInDrive (folderName parentId : value) : M D data :=
  let parentId := default_param parentId VNull in
  try_catch
    (let fileMetadata :=
       Resource folderName (VStr folder_mime)
         (Some (if truthy parentId then [parentId] else [])) in
     let* response := await (FilesCreate fileMetadata None "id, name") in
     ret (rdata response))
    (fun error =>
       let* _ := console_error "Error creating folder in Drive:" error in
       throw error).

Definition deleteFolderFromDrive (folderId : string) : M D Z :=
  try_catch
    (let* response := await (FilesDelete folderId) in
     ret (status response))
    (fun error =>
       let* _ := console_error "Error deleting folder from Drive:" error in
       throw error).

End DriveFunctions.

(** ** Server set-up and staging (multer) *)

(** [path.join(dir, name)] for a directory without trailing separator and a
    single path segment. *)
Definition path_join (dir name : string) : string := dir +:+ "/" +:+ name.

(** The file part of a multipart request: the form field it was sent under,
    its client-side name, and its declared content type. *)
Record part := Part {
  fieldname : string;
  part_originalname : string;
  part_mimetype : string
}.

(** [multer.diskStorage({ destination, filename })]; [filename] also reads
    the clock ([Date.now()]). *)
Record StorageEngine := DiskStorage {
  st_destination : part → string;
  st_filename : Z → part → string
}.

Definition timestamped (now : Z) (file : part) : string :=
  to_string (VNum now) +:+ "-" +:+ part_originalname file.

(** [multer({ storage }).single(field)]: with no file part [req.file] stays
    undefined; a part sent under [field] is written to disk under
    [destination/filename]; a part under any other field is refused. *)
Definition single {D} (st : StorageEngine) (field : string) (now : Z)
    (p : option part) : M D (option File) :=
  match p with
  | None => ret None
  | Some p =>
      if decide (fieldname p = field) then
        let dest := st_destination st p in
        let fname := st_filename st now p in
        let file :=
          MkFile (part_originalname p) (part_mimetype p) dest fname
            (path_join dest fname) in
        fun w =>
          (inr (Some file),
           World (fs w ∪ {[path file]}) (drive w)
             (trace w ++ [Staged (path file)]))
      else throw (UnexpectedField (fieldname p))
  end.

(** ** HTTP responses *)

Inductive payload :=
| Send (text : string)
| JsonResult (message key : string) (result : data)
| JsonObject (d : data)
| JsonListing (key : string) (l : option (list (gmap string value)))
| ErrorPage (e : error).

Record http_response := Http { http_status : Z; http_body : payload }.

(** A route is a middleware followed by its handler; an error raised by the
    middleware goes to the framework's error handler (status 500). *)
Definition route {D A} (middleware : M D A) (handler : A → M D http_response)
    : world D → http_response * world D :=
  fun w =>
    match middleware w with
    | (inl e, w') => (Http 500 (ErrorPage e), w')
    | (inr a, w') =>
        match handler a w' with
        | (inr r, w'') => (r, w'')
        | (inl e, w'') => (Http 500 (ErrorPage e), w'')
        end
    end.

(** ** The Drive server *)

Section Server.
Context {D : Type} `{Drive D}.
Variable dirname : string.

Definition imgDir : string := path_join dirname "img".
Definition uploadsDir : string := path_join dirname "uploads".

(** Temporary storage before uploading to Drive: [uploadsDir] is used for
    all temporary files. *)
Definition storage : StorageEngine :=
  DiskStorage (fun _ => uploadsDir) timestamped.

Definition upload := single (D := D) storage.

Definition post_drive_upload_image (now : Z) (req_part : option part) :=
  route (upload "image" now req_part) (fun req_file =>
    match req_file with
    | None => ret (Http 400 (Send "No image uploaded."))
    | Some file =>
        try_catch
          (let* result :=
             uploadFileToDrive file (VStr (mimetype file)) VUndefined in
           ret (Http 200
                  (JsonResult "Image uploaded to Drive successfully"
                     "file" result)))
          (fun _ => ret (Http 500 (Send "Failed to upload image to Drive.")))
    end).

Definition post_drive_upload_file (now : Z) (req_part : option part) :=
  route (upload "file" now req_part) (fun req_file =>
    match req_file with
    | None => ret (Http 400 (Send "No file uploaded."))
    | Some file =>
        try_catch
          (let* result :=
             uploadFileToDrive file (VStr (mimetype file)) VUndefined in
           ret (Http 200
                  (JsonResult "File uploaded to Drive successfully"
                     "file" result)))
          (fun _ => ret (Http 500 (Send "Failed to upload file to Drive.")))
    end).

Definition get_drive_file_metadata (fileId : string) :=
  route (ret tt) (fun _ =>
    try_catch
      (let* metadata := getFileMetadataFromDrive fileId in
       ret (Http 200 (JsonObject metadata)))
      (fun _ =>
         ret (Http 500 (Send "Failed to get file metadata from Drive."))))
  (D := D).

Definition put_drive_file (fileId : string) (now : Z)
    (req_part : option part) :=
  route (upload "file" now req_part) (fun req_file =>
    match req_file with
    | None => ret (Http 400 (Send "No file provided for update."))
    | Some file =>
        try_catch
          (let* result :=
             updateFileInDrive fileId file (VStr (mimetype file)) in
           ret (Http 200
                  (JsonResult "File updated in Drive successfully"
                     "file" result)))
          (fun _ => ret (Http 500 (Send "Failed to update file in Drive.")))
    end).

Definition delete_drive_file (fileId : string) :=
  route (ret tt) (fun _ =>
    try_catch
      (let* status := deleteFileFromDrive fileId in
       if decide (status = 204)
       then ret (Http 200 (Send "File deleted from Drive successfully."))
       else ret (Http 500 (Send "Failed to delete file from Drive.")))
      (fun _ => ret (Http 500 (Send "Failed to delete file from Drive."))))
  (D := D).

Definition get_drive_search (fileName : string) :=
  route (ret tt) (fun _ =>
    try_catch
      (let* files := searchFileInDrive fileName in
       ret (Http 200 (JsonListing "files" files)))
      (fun _ =>
         ret (Http 500 (Send "Failed to search for files in Drive."))))
  (D := D).

Definition get_drive_files :=
  route (ret tt) (fun _ =>
    try_catch
      (let* files := getAllFilesFromDrive VUndefined in
       ret (Http 200 (JsonListing "files" files)))
      (fun _ =>
         ret (Http 500 (Send "Failed to get all files from Drive."))))
  (D := D).

Definition get_drive_folders :=
  route (ret tt) (fun _ =>
    try_catch
      (let* folders := getAllFoldersFromDrive in
       ret (Http 200 (JsonListing "folders" folders)))
      (fun _ =>
         ret (Http 500 (Send "Failed to get all folders from Drive."))))
  (D := D).

(** [req.body] is read at [folderName] and [parentId]. *)
Definition post_drive_folder (folderName parentId : value) :=
  route (ret tt) (fun _ =>
    if negb (truthy folderName)
    then ret (Http 400 (Send "Folder name is required."))
    else
      try_catch
        (let* folder := createFolderInDrive folderName parentId in
         ret (Http 200
                (JsonResult "Folder created successfully" "folder" folder)))
        (fun _ =>
           ret (Http 500 (Send "Failed to create folder in Drive."))))
  (D := D).

Definition delete_drive_folder (folderId : string) :=
  route (ret tt) (fun _ =>
    try_catch
      (let* status := deleteFolderFromDrive folderId in
       if decide (status = 204)
       then ret (Http 200 (Send "Folder deleted successfully."))
       else ret (Http 500 (Send "Failed to delete folder from Drive.")))
      (fun _ => ret (Http 500 (Send "Failed to delete folder from Drive."))))
  (D := D).

End Server.

(** ** The local-only server *)

Module LocalServer.
Section LocalServer.
Context {D : Type}.
Variable dirname : string.

Definition imageStorage : StorageEngine :=
  DiskStorage (fun _ => imgDir dirname) timestamped.

Definition fileStorage : StorageEngine :=
  DiskStorage (fun _ => uploadsDir dirname) timestamped.

Definition uploadImage := single (D := D) imageStorage.
Definition uploadFile := single (D := D) fileStorage.

Definition post_upload_image (now : Z) (req_part : option part) :=
  route (uploadImage "image" now req_part) (fun req_file =>
    match req_file with
    | None => ret (Http 400 (Send "No image uploaded."))
    | Some file =>
        ret (Http 200
               (Send ("Image uploaded successfully: " +:+ filename file)))
    end).

Definition post_upload_file (now : Z) (req_part : option part) :=
  route (uploadFile "file" now req_part) (fun req_file =>
    match req_file with
    | None => ret (Http 400 (Send "No file uploaded."))
    | Some file =>
        ret (Http 200
               (Send ("File uploaded successfully: " +:+ filename file)))
    end).

End LocalServer.
End LocalServer.

(** ** Upload and update as actions *)

Inductive action :=
| Upload (file : File) (fileType folderId : value)
| Update (fileId : string) (newFile : File) (fileType : value).

(** The temporary file an action works on. *)
Definition staged (a : action) : File :=
  match a with
  | Upload file _ _ => file
  | Update _ newFile _ => newFile
  end.

Definition run_action {D} `{Drive D} (a : action) : M D data :=
  match a with
  | Upload file fileType folderId => uploadFileToDrive file fileType folderId
  | Update fileId newFile fileType => updateFileInDrive fileId newFile fileType
  end.

(** The events an action adds to the trace. *)
Definition events_of {D} `{Drive D} (a : action) (w : world D) : list event :=
  drop (length (trace w)) (trace (snd (run_action a w))).

(** What "the remote push" of an action is, stated on the client alone: for
    an upload the creation followed by the grant of read access to anyone on
    the created identifier, for an update the replacement. *)
Definition create_call (file : File) (fileType folderId : value) : call :=
  FilesCreate
    {| name := VStr (originalname file);
       mimeType := fileType;
       parents :=
         Some (if truthy folderId then [folderId] else []) |}
    (Some {| media_mimeType := fileType; body := path file |})
    "id, name".

Definition grant_call (created : response) : call :=
  PermissionsCreate (get_prop (props (rdata created)) "id") "reader" "anyone".

Definition update_call (fileId : string) (newFile : File) (fileType : value)
    : call :=
  FilesUpdate fileId
    {| name := VStr (originalname newFile);
       mimeType := fileType;
       parents := None |}
    (Some {| media_mimeType := fileType; body := path newFile |})
    "id, name".

Definition remote_push {D} `{Drive D} (a : action) (d : D)
    : (api_error + response) * D :=
  match a with
  | Upload file fileType folderId =>
      match request (create_call file fileType folderId) d with
      | (inr created, d1) =>
          match request (grant_call created) d1 with
          | (inr _, d2) => (inr created, d2)
          | (inl e, d2) => (inl e, d2)
          end
      | (inl e, d1) => (inl e, d1)
      end
  | Update fileId newFile fileType =>
      request (update_call fileId newFile fileType) d
  end.

(** ** Reading traces *)

Definition is_remote (e : event) : bool :=
  match e with Invoke _ | Settled _ => true | _ => false end.

Definition is_log (e : event) : bool :=
  match e with ConsoleError _ _ => true | _ => false end.

(** The log line of a failed file deletion, as the folder deletion writes
    it; other events are left as they are. *)
Definition folder_label (e : event) : event :=
  match e with
  | ConsoleError label err =>
      if String.eqb label "Error deleting file from Drive:"
      then ConsoleError "Error deleting folder from Drive:" err
      else e
  | _ => e
  end.

(** The answer of the file deletion route, in the words of the folder
    deletion route; the status code is kept. *)
Definition folder_wording (r : http_response) : http_response :=
  match http_body r with
  | Send text =>
      if String.eqb text "File deleted from Drive successfully."
      then Http (http_status r) (Send "Folder deleted successfully.")
      else if String.eqb text "Failed to delete file from Drive."
      then Http (http_status r) (Send "Failed to delete folder from Drive.")
      else r
  | _ => r
  end.

(** Forget which label a log line carries. *)
Definition unlabel (e : event) : event :=
  match e with ConsoleError _ err => ConsoleError "" err | _ => e end.

(** The remote calls issued, in order. *)
Definition calls_of (tr : list event) : list call :=
  omap (λ e, match e with Invoke c => Some c | _ => None end) tr.

(** The events a run added when it took the world from [w] to [w']. *)
Definition new_events {D} (w w' : world D) : list event :=
  drop (length (trace w)) (trace w').

(** [p] lies directly or deeper under directory [dir]. *)
Definition in_dir (dir p : string) : bool := String.prefix (dir +:+ "/") p.

(** ** The query language of the backend *)

(** Modelled from the backend's documented query syntax, which is not part of
    this repository: a string literal is enclosed in single quotes, and a
    backslash makes the next character (a quote or a backslash) literal. *)
Fixpoint lex_literal (s : string) : option (string * string) :=
  match s with
  | EmptyString => None
  | String c rest =>
      if Ascii.eqb c "'" then Some (EmptyString, rest)
      else if Ascii.eqb c "\" then
        match rest with
        | EmptyString => None
        | String c' rest' =>
            match lex_literal rest' with
            | Some (lit, tl) => Some (String c' lit, tl)
            | None => None
            end
        end
      else
        match lex_literal rest with
        | Some (lit, tl) => Some (String c lit, tl)
        | None => None
        end
  end.

(** The escaping that makes [lex_literal] read a given text back. *)
Fixpoint escape_literal (s : string) : string :=
  match s with
  | EmptyString => EmptyString
  | String c rest =>
      if Ascii.eqb c "'" || Ascii.eqb c "\"
      then String "\" (String c (escape_literal rest))
      else String c (escape_literal rest)
  end.

Fixpoint strip_prefix (p s : string) : option string :=
  match p with
  | EmptyString => Some s
  | String a p' =>
      match s with
      | EmptyString => None
      | String b s' => if Ascii.eqb a b then strip_prefix p' s' else None
      end
  end.

Inductive query :=
| NameContains (text : string)
| MimeIs (m : string)
| MimeIsNot (m : string).

Definition whole_literal (s : string) : option string :=
  match lex_literal s with
  | Some (lit, EmptyString) => Some lit
  | _ => None
  end.

(** The three shapes of query the server sends. *)
Definition parse_query (q : string) : option query :=
  match strip_prefix "name contains '" q with
  | Some s => NameContains <$> whole_literal s
  | None =>
      match strip_prefix "mimeType = '" q with
      | Some s => MimeIs <$> whole_literal s
      | None =>
          match strip_prefix "mimeType != '" q with
          | Some s => MimeIsNot <$> whole_literal s
          | None => None
          end
      end
  end.

(** The query that filters on names containing [term]. *)
Definition contains_filter (term : string) : string :=
  "name contains '" +:+ escape_literal term +:+ "'".

Definition has_char (c : ascii) (s : string) : bool :=
  existsb (Ascii.eqb c) (list_ascii_of_string s).

(** ** A reference backend

    An in-memory drive that follows the backend's contract: identifiers are
    allotted by the store, a response carries only the fields asked for, a
    listing carries only the files its query selects.  It serves to run the
    server on concrete requests. *)

Module SimDrive.

Record t := Sim {
  store : list (gmap string value);
  next_id : nat;
  quota : nat;
  sharing : bool;
  shared : gset string
}.

(** Field names of a mask such as [id, name] or [files(id, name)]. *)
Fixpoint mask_fields (s cur : string) : list string :=
  match s with
  | EmptyString => [cur]
  | String c s' =>
      if Ascii.eqb c "," then cur :: mask_fields s' EmptyString
      else if Ascii.eqb c " " || Ascii.eqb c ")" then mask_fields s' cur
      else mask_fields s' (cur +:+ String c EmptyString)
  end.

Definition mask (fields : string) : list string :=
  match strip_prefix "files(" fields with
  | Some inner => mask_fields inner EmptyString
  | None => mask_fields fields EmptyString
  end.

Definition project (fields : string) (o : gmap string value)
    : gmap string value :=
  filter (λ kv, fst kv ∈ mask fields) o.

Definition has_id (id : string) (o : gmap string value) : bool :=
  bool_decide (o !! "id" = Some (VStr id)).

Fixpoint is_substring (t s : string) : bool :=
  String.prefix t s
  || match s with
     | EmptyString => false
     | String _ s' => is_substring t s'
     end.

Definition selects (q : query) (o : gmap string value) : bool :=
  match q with
  | NameContains text => is_substring text (to_string (get_prop o "name"))
  | MimeIs m => bool_decide (o !! "mimeType" = Some (VStr m))
  | MimeIsNot m => negb (bool_decide (o !! "mimeType" = Some (VStr m)))
  end.

Definition new_file (id : string) (res : resource) : gmap string value :=
  <["id" := VStr id]>
    (<["name" := VStr (to_string (name res))]>
       (<["mimeType" := VStr (to_string (mimeType res))]>
          (<["parents" := VArr (to_string <$> default [] (parents res))]>
             ∅))).

Definition rewrite_file (res : resource) (o : gmap string value)
    : gmap string value :=
  <["name" := VStr (to_string (name res))]>
    (<["mimeType" := VStr (to_string (mimeType res))]> o).

Definition not_found : api_error := ApiErr 404 "File not found".

Definition step (c : call) (d : t) : (api_error + response) * t :=
  match c with
  | FilesCreate res _ fields =>
      if decide (length (store d) < quota d)%nat then
        let o := new_file ("f" +:+ pretty (next_id d)) res in
        (inr (Response 200 (Data (project fields o) None)),
         Sim (store d ++ [o]) (S (next_id d)) (quota d) (sharing d)
           (shared d))
      else (inl (ApiErr 403 "Storage quota exceeded"), d)
  | PermissionsCreate (VStr id) _ _ =>
      if existsb (has_id id) (store d) then
        if sharing d then
          (inr (Response 200 (Data {["id" := VStr "anyoneWithLink"]} None)),
           Sim (store d) (next_id d) (quota d) (sharing d)
             (shared d ∪ {[id]}))
        else (inl (ApiErr 403 "Sharing is not allowed"), d)
      else (inl not_found, d)
  | PermissionsCreate _ _ _ => (inl not_found, d)
  | FilesGet id fields =>
      match List.find (has_id id) (store d) with
      | Some o => (inr (Response 200 (Data (project fields o) None)), d)
      | None => (inl not_found, d)
      end
  | FilesUpdate id res _ fields =>
      match List.find (has_id id) (store d) with
      | Some o =>
          let o' := rewrite_file res o in
          (inr (Response 200 (Data (project fields o') None)),
           Sim ((λ x, if has_id id x then o' else x) <$> store d)
             (next_id d) (quota d) (sharing d) (shared d))
      | None => (inl not_found, d)
      end
  | FilesDelete id =>
      if existsb (has_id id) (store d) then
        (inr (Response 204 (Data ∅ None)),
         Sim (List.filter (λ x, negb (has_id id x)) (store d))
           (next_id d) (quota d) (sharing d) (shared d ∖ {[id]}))
      else (inl not_found, d)
  | FilesList q fields =>
      match parse_query q with
      | Some qy =>
          (inr (Response 200
                  (Data ∅
                     (Some (project fields
                              <$> List.filter (selects qy) (store d))))),
           d)
      | None => (inl (ApiErr 400 "Invalid query"), d)
      end
  end.

#[global] Instance sim_drive : Drive t := step.

Definition empty : t := Sim [] 0 100 true ∅.

End SimDrive.

(** ** Contracts a backend may honour *)

(** The answer to a creation carries no field outside the mask asked for. *)
Definition honours_mask (D : Type) `{Drive D} : Prop :=
  ∀ res med d r d',
    request (FilesCreate res med "id, name") d = (inr r, d') →
    dom (props (rdata r)) ⊆ ({["id"; "name"]} : gset string).

(** A listing that asks to leave folders out contains none. *)
Definition honours_exclusion (D : Type) `{Drive D} : Prop :=
  ∀ fields d r d' l o,
    request
      (FilesList "mimeType != 'application/vnd.google-apps.folder'" fields) d
      = (inr r, d') →
    files (rdata r) = Some l →
    o ∈ l →
    o !! "mimeType" ≠ Some (VStr folder_mime).

(** ** Sample requests *)

Module Sample.

Definition photo : part := Part "image" "photo.png" "image/png".

(** [photo] as staged at clock reading 17 by a server installed in [/app]. *)
Definition photo_file : File :=
  MkFile "photo.png" "image/png" "/app/uploads" "17-photo.png"
    "/app/uploads/17-photo.png".

Definition fresh : world SimDrive.t := World ∅ SimDrive.empty [].

(** The staged photo is on disk; the drive is empty. *)
Definition staged_world : world SimDrive.t :=
  World {["/app/uploads/17-photo.png"]} SimDrive.empty [].

(** As [staged_world], with a drive that refuses to share. *)
Definition private_world : world SimDrive.t :=
  World {["/app/uploads/17-photo.png"]}
    (SimDrive.Sim [] 0 100 false ∅) [].

(** A drive holding one picture and one folder. *)
Definition stocked : world SimDrive.t :=
  World ∅
    (SimDrive.Sim
       [SimDrive.new_file "f0"
          (Resource (VStr "photo.png") (VStr "image/png") (Some []));
        SimDrive.new_file "f1"
          (Resource (VStr "docs") (VStr folder_mime) (Some []))]
       2 100 true ∅)
    [].

End Sample.

(** ** The Drive routes without an upload, as a table *)

Inductive plain_route :=
| GetMetadata (fileId : string)
| GetSearch (fileName : string)
| GetFiles
| GetFolders
| PostFolder (folderName parentId : value)
| DeleteFile (fileId : string)
| DeleteFolder (folderId : string).

Definition serve {D} `{Drive D} (r : plain_route)
    : world D → http_response * world D :=
  match r with
  | GetMetadata fileId => get_drive_file_metadata fileId
  | GetSearch fileName => get_drive_search fileName
  | GetFiles => get_drive_files
  | GetFolders => get_drive_folders
  | PostFolder folderName parentId => post_drive_folder folderName parentId
  | DeleteFile fileId => delete_drive_file fileId
  | DeleteFolder folderId => delete_drive_folder folderId
  end.

(** What each of these routes asks of the backend. *)
Definition backend_calls (r : plain_route) : list call :=
  match r with
  | GetMetadata fileId =>
      [FilesGet fileId
         "id, name, mimeType, webViewLink, webContentLink, parents"]
  | GetSearch fileName =>
      [FilesList ("name contains '" +:+ fileName +:+ "'")
         "files(id, name, mimeType)"]
  | GetFiles =>
      [FilesList "mimeType != 'application/vnd.google-apps.folder'"
         "files(id, name, mimeType, webViewLink, webContentLink)"]
  | GetFolders =>
      [FilesList "mimeType = 'application/vnd.google-apps.folder'"
         "files(id, name)"]
  | PostFolder folderName parentId =>
      if truthy folderName then
        [FilesCreate
           {| name := folderName;
              mimeType := VStr "application/vnd.google-apps.folder";
              parents := Some (if truthy parentId then [parentId] else []) |}
           None "id, name"]
      else []
  | DeleteFile id | DeleteFolder id => [FilesDelete id]
  end.

(** What the client is told when the backend fails. *)
Definition failure_text (r : plain_route) : string :=
  match r with
  | GetMetadata _ => "Failed to get file metadata from Drive."
  | GetSearch _ => "Failed to search for files in Drive."
  | GetFiles => "Failed to get all files from Drive."
  | GetFolders => "Failed to get all folders from Drive."
  | PostFolder _ _ => "Failed to create folder in Drive."
  | DeleteFile _ => "Failed to delete file from Drive."
  | DeleteFolder _ => "Failed to delete folder from Drive."
  end.

(** What is written to the server's log when the backend fails. *)
Definition log_label (r : plain_route) : string :=
  match r with
  | GetMetadata _ => "Error getting file metadata from Drive:"
  | GetSearch _ => "Error searching file in Drive:"
  | GetFiles => "Error getting all files from Drive:"
  | GetFolders => "Error getting all folders from Drive:"
  | PostFolder _ _ => "Error creating folder in Drive:"
  | DeleteFile _ => "Error deleting file from Drive:"
  | DeleteFolder _ => "Error deleting folder from Drive:"
  end.

(** What the client is told when the backend has answered. *)
Definition success_answer (r : plain_route) (resp : response)
    : http_response :=
  match r with
  | GetMetadata _ =>
      Http 200
        (JsonObject
           (Data
              (<["publicDownloadLink" :=
                   VStr ("https://drive.google.com/uc?id="
                         +:+ to_string (get_prop (props (rdata resp)) "id"))]>
                 (props (rdata resp)))
              (files (rdata resp))))
  | GetSearch _ | GetFiles =>
      Http 200 (JsonListing "files" (files (rdata resp)))
  | GetFolders => Http 200 (JsonListing "folders" (files (rdata resp)))
  | PostFolder _ _ =>
      Http 200 (JsonResult "Folder created successfully" "folder"
                  (rdata resp))
  | DeleteFile _ =>
      if decide (status resp = 204)
      then Http 200 (Send "File deleted from Drive successfully.")
      else Http 500 (Send "Failed to delete file from Drive.")
  | DeleteFolder _ =>
      if decide (status resp = 204)
      then Http 200 (Send "Folder deleted successfully.")
      else Http 500 (Send "Failed to delete folder from Drive.")
  end.

(** ** Digits *)

Definition is_digit (c : ascii) : bool := has_char c "0123456789".

Definition digits (s : string) : bool :=
  forallb is_digit (list_ascii_of_string s).

(** A request parameter that names a file of a directory: one path segment,
    so that [path.join(dir, name)] is [dir/name]. *)
Definition plain_segment (s : string) : bool :=
  negb (has_char "/" s)
  && negb (String.eqb s "") && negb (String.eqb s ".")
  && negb (String.eqb s "..").

(** ** The local file routes, on a disk with contents

    The routes that keep files on the server's own disk do not call the
    backend; what matters is what the files hold.  Here the disk maps the
    path of each regular file to its contents. *)

Module LocalFiles.

(** A file part with the bytes it carries. *)
Record sent := Sent { meta : part; content : string }.

(** How a handler ends: with [res.status(code).send(text)], with
    [res.sendFile(path)] on a file holding [content], or with an exception
    that goes to the framework's error handler. *)
Inductive answer :=
| Status (code : Z) (text : string)
| SendFile (path : string) (content : string)
| Uncaught (e : error).

Definition existsSync (d : gmap string string) (p : string) : bool :=
  bool_decide (is_Some (d !! p)).

(** [fs.unlink] and [fs.unlinkSync]. *)
Definition unlink (p : string) (d : gmap string string)
    : error + gmap string string :=
  if existsSync d p then inr (delete p d) else inl (ENOENT p).

Definition renameSync (old new : string) (d : gmap string string)
    : error + gmap string string :=
  match d !! old with
  | Some c => inr (<[new := c]> (delete old d))
  | None => inl (ENOENT old)
  end.

(** [multer({ storage }).single(field)], writing the bytes. *)
Definition stage (st : StorageEngine) (field : string) (now : Z)
    (p : option sent) (d : gmap string string)
    : (error + option File) * gmap string string :=
  match p with
  | None => (inr None, d)
  | Some s =>
      if decide (fieldname (meta s) = field) then
        let dest := st_destination st (meta s) in
        let fname := st_filename st now (meta s) in
        let file :=
          MkFile (part_originalname (meta s)) (part_mimetype (meta s)) dest
            fname (path_join dest fname) in
        (inr (Some file), <[path file := content s]> d)
      else (inl (UnexpectedField (fieldname (meta s))), d)
  end.

Section Routes.
Variable dirname : string.

(** [POST /upload/image] and [POST /upload/file]; [engine] is the storage of
    the route's multer instance. *)
Definition post_upload_image (engine : StorageEngine) (now : Z)
    (p : option sent) (d : gmap string string)
    : answer * gmap string string :=
  match stage engine "image" now p d with
  | (inl e, d) => (Uncaught e, d)
  | (inr None, d) => (Status 400 "No image uploaded.", d)
  | (inr (Some file), d) =>
      (Status 200 ("Image uploaded successfully: " +:+ filename file), d)
  end.

Definition post_upload_file (engine : StorageEngine) (now : Z)
    (p : option sent) (d : gmap string string)
    : answer * gmap string string :=
  match stage engine "file" now p d with
  | (inl e, d) => (Uncaught e, d)
  | (inr None, d) => (Status 400 "No file uploaded.", d)
  | (inr (Some file), d) =>
      (Status 200 ("File uploaded successfully: " +:+ filename file), d)
  end.

(** [GET /file/:filename]; [fname] is [req.params.filename]. *)
Definition get_file (fname : string) (d : gmap string string) : answer :=
  let filePath := path_join (uploadsDir dirname) fname in
  let filePath :=
    if negb (existsSync d filePath) then path_join (imgDir dirname) fname
    else filePath in
  if existsSync d filePath then
    match d !! filePath with
    | Some c => SendFile filePath c
    | None => Uncaught (ENOENT filePath)
    end
  else Status 404 "File not found.".

(** [PUT /file/:filename]: multer has staged the new file before the handler
    looks for the old one. *)
Definition put_file (engine : StorageEngine) (fname : string) (now : Z)
    (p : option sent) (d : gmap string string)
    : answer * gmap string string :=
  match stage engine "file" now p d with
  | (inl e, d) => (Uncaught e, d)
  | (inr req_file, d) =>
      let filePath := path_join (uploadsDir dirname) fname in
      let filePath :=
        if negb (existsSync d filePath) then path_join (imgDir dirname) fname
        else filePath in
      match req_file with
      | None => (Status 400 "No file provided for update.", d)
      | Some file =>
          if existsSync d filePath then
            match unlink filePath d with
            | inl e => (Uncaught e, d)
            | inr d1 =>
                let newFilePath :=
                  path_join (destination file) (filename file) in
                match renameSync newFilePath filePath d1 with
                | inl e => (Uncaught e, d1)
                | inr d2 =>
                    (Status 200
                       ("File " +:+ fname +:+ " updated successfully."),
                     d2)
                end
            end
          else (Status 404 "Original file not found for update.", d)
      end
  end.

(** [DELETE /file/:filename]. *)
Definition delete_file (fname : string) (d : gmap string string)
    : answer * gmap string string :=
  let filePath := path_join (uploadsDir dirname) fname in
  let filePath :=
    if negb (existsSync d filePath) then path_join (imgDir dirname) fname
    else filePath in
  if existsSync d filePath then
    match unlink filePath d with
    | inl err => (Status 500 "Error deleting file.", d)
    | inr d' =>
        (Status 200 ("File " +:+ fname +:+ " deleted successfully."), d')
    end
  else (Status 404 "File not found.", d).

(** The copy of [fname] a request is about: the one among the general files
    if there is one, else the one among the images. *)
Definition located (fname : string) (d : gmap string string)
    : option string :=
  if existsSync d (path_join (uploadsDir dirname) fname)
  then Some (path_join (uploadsDir dirname) fname)
  else if existsSync d (path_join (imgDir dirname) fname)
  then Some (path_join (imgDir dirname) fname)
  else None.

End Routes.

(** Sample contents: a report among the general files, a logo among the
    images, and a note present in both directories. *)
Definition shelf : gmap string string :=
  <["/app/uploads/report.txt" := "q3 figures"]>
    (<["/app/img/logo.png" := "logo bytes"]>
       (<["/app/uploads/note.txt" := "general note"]>
          (<["/app/img/note.txt" := "image note"]> ∅))).

Definition revised : sent :=
  Sent (Part "file" "new.txt" "text/plain") "q4 figures".

End LocalFiles.

(** * Properties *)

(** ** Symbolic runs of the drive functions *)

Section Runs.
Context {D : Type} `{Drive D}.

Lemma parents_default (folderId : value) :
  (if truthy (default_param folderId VNull)
   then [default_param folderId VNull] else [])
  = (if truthy folderId then [folderId] else []).
Proof. by destruct folderId. Qed.

Lemma uploadFileToDrive_run file fileType folderId (w : world D) :
  uploadFileToDrive file fileType folderId w =
    let p := path file in
    let c1 := create_call file fileType folderId in
    match request c1 (drive w) with
    | (inl e, d1) =>
        (inl (ApiError e),
         World (fs w) d1
           (trace w ++
              [CreateReadStream p; Invoke c1; Settled (inl e);
               ConsoleError "Error uploading file to Drive:" (ApiError e)]))
    | (inr r, d1) =>
        let c2 := grant_call r in
        match request c2 d1 with
        | (inl e, d2) =>
            (inl (ApiError e),
             World (fs w) d2
               (trace w ++
                  [CreateReadStream p; Invoke c1; Settled (inr r);
                   Invoke c2; Settled (inl e);
                   ConsoleError "Error uploading file to Drive:"
                     (ApiError e)]))
        | (inr g, d2) =>
            if decide (p ∈ fs w) then
              (inr (rdata r),
               World (fs w ∖ {[p]}) d2
                 (trace w ++
                    [CreateReadStream p; Invoke c1; Settled (inr r);
                     Invoke c2; Settled (inr g); UnlinkSync p]))
            else
              (inl (ENOENT p),
               World (fs w) d2
                 (trace w ++
                    [CreateReadStream p; Invoke c1; Settled (inr r);
                     Invoke c2; Settled (inr g); UnlinkSync p;
                     ConsoleError "Error uploading file to Drive:"
                       (ENOENT p)]))
        end
    end.
Proof.
  unfold uploadFileToDrive, try_catch, bind, createReadStream, await,
    unlinkSync, console_error, emit, throw, ret, create_call, grant_call,
    bind.
  cbn -[request]. rewrite parents_default.
  destruct (request _ (drive w)) as [[e|r] d1]; cbn -[request].
  { by rewrite <- !app_assoc. }
  destruct (request _ d1) as [[e|g] d2]; cbn -[request].
  { by rewrite <- !app_assoc. }
  case_decide; cbn; by rewrite <- !app_assoc.
Qed.

Lemma updateFileInDrive_run fileId newFile fileType (w : world D) :
  updateFileInDrive fileId newFile fileType w =
    let p := path newFile in
    let c := update_call fileId newFile fileType in
    match request c (drive w) with
    | (inl e, d1) =>
        (inl (ApiError e),
         World (fs w) d1
           (trace w ++
              [CreateReadStream p; Invoke c; Settled (inl e);
               ConsoleError "Error updating file in Drive:" (ApiError e)]))
    | (inr r, d1) =>
        if decide (p ∈ fs w) then
          (inr (rdata r),
           World (fs w ∖ {[p]}) d1
             (trace w ++
                [CreateReadStream p; Invoke c; Settled (inr r);
                 UnlinkSync p]))
        else
          (inl (ENOENT p),
           World (fs w) d1
             (trace w ++
                [CreateReadStream p; Invoke c; Settled (inr r);
                 UnlinkSync p;
                 ConsoleError "Error updating file in Drive:" (ENOENT p)]))
    end.
Proof.
  unfold updateFileInDrive, try_catch, bind, createReadStream, await,
    unlinkSync, console_error, emit, throw, ret, update_call.
  cbn -[request].
  destruct (request _ (drive w)) as [[e|r] d1]; cbn -[request].
  { by rewrite <- !app_assoc. }
  case_decide; cbn; by rewrite <- !app_assoc.
Qed.

Lemma delete_run label fileId (w : world D) :
  try_catch
    (let* response := await (FilesDelete fileId) in ret (status response))
    (fun error => let* _ := console_error label error in throw error) w =
    match request (FilesDelete fileId) (drive w) with
    | (inl e, d1) =>
        (inl (ApiError e),
         World (fs w) d1
           (trace w ++
              [Invoke (FilesDelete fileId); Settled (inl e);
               ConsoleError label (ApiError e)]))
    | (inr r, d1) =>
        (inr (status r),
         World (fs w) d1
           (trace w ++ [Invoke (FilesDelete fileId); Settled (inr r)]))
    end.
Proof.
  unfold try_catch, bind, await, console_error, emit, throw, ret.
  cbn -[request].
  destruct (request _ (drive w)) as [[e|r] d1]; cbn -[request];
    by rewrite <- ?app_assoc.
Qed.

Lemma list_run label q fields (w : world D) :
  try_catch
    (let* response := await (FilesList q fields) in
     ret (files (rdata response)))
    (fun error => let* _ := console_error label error in throw error) w =
    match request (FilesList q fields) (drive w) with
    | (inl e, d1) =>
        (inl (ApiError e),
         World (fs w) d1
           (trace w ++
              [Invoke (FilesList q fields); Settled (inl e);
               ConsoleError label (ApiError e)]))
    | (inr r, d1) =>
        (inr (files (rdata r)),
         World (fs w) d1
           (trace w ++ [Invoke (FilesList q fields); Settled (inr r)]))
    end.
Proof.
  unfold try_catch, bind, await, console_error, emit, throw, ret.
  cbn -[request].
  destruct (request _ (drive w)) as [[e|r] d1]; cbn -[request];
    by rewrite <- ?app_assoc.
Qed.

End Runs.

(** ** Staging discipline of upload and update *)

(** Split an action's run into the cases of its symbolic run: which remote
    call failed, and whether the staged file was there to be removed. *)
Ltac split_request :=
  match goal with
  | |- context [request ?c ?d] =>
      let E := fresh "Hreq" in
      destruct (request c d) as [[?|?] ?] eqn:E; cbn zeta beta iota
  end.

Ltac split_decide :=
  match goal with
  | |- context [decide ?P] => destruct (decide P)
  end.

Ltac run_cases a :=
  unfold events_of;
  destruct a as [file fileType folderId | fileId newFile fileType];
  cbn [run_action staged remote_push];
  rewrite ?uploadFileToDrive_run, ?updateFileInDrive_run;
  cbn zeta;
  repeat split_request;
  repeat split_decide;
  cbn [fst snd trace fs drive];
  rewrite ?drop_app_length.

(** Resolve a lookup at an unknown index in a trace written out in full. *)
Ltac at_index i :=
  repeat (destruct i as [|i]; cbn in *; simplify_eq; try done; try lia).

Section Staging.
Context {D : Type} `{Drive D}.

(** C1.  For every upload or update: when the remote push (for an upload,
    creation and grant) succeeds, the staged file is unlinked and is absent
    from the file system when the action ends, and the action returns the
    push's data if the file was there; when the push fails, that failure is
    what the action throws, no unlink happens and the file system is
    untouched, so a staged file that existed still exists. *)
Theorem staged_file_reclaimed_exactly_on_success
    (a : action) (w : world D) :
  (∀ r d', remote_push a (drive w) = (inr r, d') →
     (path (staged a) ∉ fs (snd (run_action a w)))
     ∧ fs (snd (run_action a w)) = fs w ∖ {[path (staged a)]}
     ∧ UnlinkSync (path (staged a)) ∈ events_of a w
     ∧ (path (staged a) ∈ fs w → fst (run_action a w) = inr (rdata r)))
  ∧ (∀ e d', remote_push a (drive w) = (inl e, d') →
     fst (run_action a w) = inl (ApiError e)
     ∧ fs (snd (run_action a w)) = fs w
     ∧ (UnlinkSync (path (staged a)) ∉ events_of a w)
     ∧ (path (staged a) ∈ fs w → path (staged a) ∈ fs (snd (run_action a w)))).
Proof.
  split.
  - intros r d'. run_cases a; intros Hpush; try discriminate Hpush;
      injection Hpush as <- <-;
      (split; [set_solver|]); (split; [set_solver|]);
      (split; [set_solver|]); intros; done.
  - intros e d'. run_cases a; intros Hpush; try discriminate Hpush;
      injection Hpush as <- <-;
      (split; [done|]); (split; [done|]);
      (split; [set_solver|]); done.
Qed.

(** C2.  In the events of a single upload or update, a cleanup of the
    staged file ([UnlinkSync]) comes after every remote call has been issued
    and has settled, each of them successfully; there is one such settled
    call at least, and the cleanup happens once. *)
Theorem push_settles_before_cleanup
    (a : action) (w : world D) (i : nat) (p : string) :
  events_of a w !! i = Some (UnlinkSync p) →
  p = path (staged a)
  ∧ (∀ j e, events_of a w !! j = Some e → is_remote e = true → (j < i)%nat)
  ∧ (∀ j r, events_of a w !! j = Some (Settled r) → ∃ resp, r = inr resp)
  ∧ (∃ j resp, (j < i)%nat ∧ events_of a w !! j = Some (Settled (inr resp)))
  ∧ (∀ j q, events_of a w !! j = Some (UnlinkSync q) → j = i).
Proof.
  run_cases a; intros Hi; at_index i.
  all: split; [done|].
  all: split; [intros j ev Hj Hev; at_index j|].
  all: split; [intros j r' Hj; at_index j; eauto|].
  all: split; [exists 2%nat; eexists; split; [lia|done]|].
  all: intros j q Hj; at_index j.
Qed.

End Staging.

(** ** The two phases of creation *)

Section Creation.
Context {D : Type} `{Drive D}.

(** C8.  An upload first creates the file, asking for the fields [id] and
    [name], and only then grants role [reader] to type [anyone] on the
    identifier the creation returned; it returns the data of the creation.
    No grant is issued when the creation fails.  With a backend that
    honours the field mask, what is returned has no field besides [id] and
    [name]. *)
Theorem upload_creates_then_grants
    (file : File) (fileType folderId : value) (w : world D) :
  let create := create_call file fileType folderId in
  let run := uploadFileToDrive file fileType folderId w in
  (∀ r d1 g d2,
     request create (drive w) = (inr r, d1) →
     request
       (PermissionsCreate (get_prop (props (rdata r)) "id")
          "reader" "anyone") d1 = (inr g, d2) →
     path file ∈ fs w →
     fst run = inr (rdata r)
     ∧ drive (snd run) = d2
     ∧ new_events w (snd run) =
         [CreateReadStream (path file);
          Invoke create; Settled (inr r);
          Invoke (PermissionsCreate (get_prop (props (rdata r)) "id")
                    "reader" "anyone");
          Settled (inr g);
          UnlinkSync (path file)])
  ∧ (∀ e d1,
     request create (drive w) = (inl e, d1) →
     fst run = inl (ApiError e)
     ∧ calls_of (new_events w (snd run)) = [create])
  ∧ (honours_mask D →
     ∀ result, fst run = inr result →
       dom (props result) ⊆ ({["id"; "name"]} : gset string)).
Proof.
  intros create run. subst create run. unfold new_events.
  rewrite uploadFileToDrive_run. cbn zeta.
  split; [|split].
  - intros r d1 g d2 Hc Hg Hin. rewrite Hc. unfold grant_call.
    rewrite Hg. rewrite decide_True by done. cbn.
    by rewrite drop_app_length.
  - intros e d1 Hc. rewrite Hc. cbn. by rewrite drop_app_length.
  - intros Hmask result.
    destruct (request _ (drive w)) as [[e|r] d1] eqn:Hc; [done|].
    destruct (request _ d1) as [[e|g] d2]; [done|].
    case_decide; [|done]. cbn. intros [= <-]. by eapply Hmask.
Qed.

End Creation.

(** ** Metadata *)

Section Metadata.
Context {D : Type} `{Drive D}.

(** C4.  Whenever the backend answers the metadata request, the record
    returned carries a [publicDownloadLink] equal to the fixed
    [https://drive.google.com/uc?id=] followed by the record's own
    identifier; the link is written by the server over whatever the backend
    sent under that name, and every other field is the backend's. *)
Theorem metadata_public_link
    (fileId : string) (w : world D) (r : response) (d' : D) :
  request
    (FilesGet fileId
       "id, name, mimeType, webViewLink, webContentLink, parents")
    (drive w) = (inr r, d') →
  ∃ m,
    fst (getFileMetadataFromDrive fileId w) = inr m
    ∧ props m !! "publicDownloadLink" =
        Some (VStr ("https://drive.google.com/uc?id="
                    +:+ to_string (get_prop (props m) "id")))
    ∧ get_prop (props m) "id" = get_prop (props (rdata r)) "id"
    ∧ (∀ id, props (rdata r) !! "id" = Some (VStr id) →
         props m !! "publicDownloadLink" =
           Some (VStr ("https://drive.google.com/uc?id=" +:+ id)))
    ∧ (props (rdata r) !! "id" = Some (VStr fileId) →
         props m !! "publicDownloadLink" =
           Some (VStr ("https://drive.google.com/uc?id=" +:+ fileId)))
    ∧ (∀ k, k ≠ "publicDownloadLink" →
         props m !! k = props (rdata r) !! k).
Proof.
  intros Hget.
  unfold getFileMetadataFromDrive, try_catch, bind, await, ret.
  rewrite Hget. cbn. eexists. split; [done|]. cbn.
  assert (Hid : get_prop
                  (<["publicDownloadLink" :=
                       VStr (public_link_prefix
                             +:+ to_string (get_prop (props (rdata r)) "id"))]>
                     (props (rdata r))) "id"
                = get_prop (props (rdata r)) "id").
  { unfold get_prop. by rewrite lookup_insert_ne. }
  split; [by rewrite Hid, lookup_insert_eq|].
  split; [done|].
  assert (Hlink : ∀ id, props (rdata r) !! "id" = Some (VStr id) →
            <["publicDownloadLink" :=
                VStr (public_link_prefix
                      +:+ to_string (get_prop (props (rdata r)) "id"))]>
              (props (rdata r)) !! "publicDownloadLink"
            = Some (VStr ("https://drive.google.com/uc?id=" +:+ id))).
  { intros id Hsome. rewrite lookup_insert_eq. unfold get_prop.
    by rewrite Hsome. }
  split; [exact Hlink|]. split; [apply Hlink|].
  intros k Hk. by rewrite lookup_insert_ne.
Qed.

End Metadata.

(** ** Deletion *)

Section Deletion.
Context {D : Type} `{Drive D}.

Lemma delete_route_run
    (label : string) (ok ko : http_response) (id : string) (w : world D) :
  route (ret tt) (fun _ =>
    try_catch
      (let* status :=
         try_catch
           (let* response := await (FilesDelete id) in
            ret (status response))
           (fun error =>
              let* _ := console_error label error in throw error) in
       if decide (status = 204) then ret ok else ret ko)
      (fun _ => ret ko)) w =
    match request (FilesDelete id) (drive w) with
    | (inl e, d1) =>
        (ko,
         World (fs w) d1
           (trace w ++
              [Invoke (FilesDelete id); Settled (inl e);
               ConsoleError label (ApiError e)]))
    | (inr r, d1) =>
        (if decide (status r = 204) then ok else ko,
         World (fs w) d1
           (trace w ++ [Invoke (FilesDelete id); Settled (inr r)]))
    end.
Proof.
  unfold route. unfold ret at 1. cbn beta iota.
  unfold try_catch at 1. unfold bind at 1. rewrite delete_run.
  destruct (request _ (drive w)) as [[e|r] d1]; [done|].
  unfold ret. by destruct (decide (status r = 204)).
Qed.

(** C5.  The answer to [DELETE /drive/file/:fileId] is 200 with the success
    message exactly when the backend's delete resolves with status 204; a
    resolution with any other status, and any rejection, gives 500. *)
Theorem delete_route_status (fileId : string) (w : world D) :
  let answer := fst (delete_drive_file fileId w) in
  let backend := fst (request (FilesDelete fileId) (drive w)) in
  (answer = Http 200 (Send "File deleted from Drive successfully.")
   ↔ ∃ r, backend = inr r ∧ status r = 204)
  ∧ (∀ r, backend = inr r → status r ≠ 204 →
       answer = Http 500 (Send "Failed to delete file from Drive."))
  ∧ (∀ e, backend = inl e →
       answer = Http 500 (Send "Failed to delete file from Drive.")).
Proof.
  cbn zeta. unfold delete_drive_file, deleteFileFromDrive.
  rewrite delete_route_run.
  destruct (request _ (drive w)) as [[e|r] d1]; cbn [fst].
  - split; [|split]; [split| |]; try done. by intros (r & ? & _).
  - destruct (decide (status r = 204)) as [Hs|Hs].
    + split; [|split]; [split| |]; try done; eauto.
      by intros r' [= <-] Hne.
    + split; [|split]; [split| |]; try done.
      by intros (r' & [= <-] & ?).
Qed.

(** C9, as the code has it.  On every identifier, deleting as a folder and
    deleting as a file give the same result (status returned or error
    thrown), leave the same backend and file system, and issue the same
    single backend call [files.delete] on that identifier.  They are equal
    up to wording only: the events of the folder deletion are those of the
    file deletion with the log label changed, and the answer of the folder
    route is the answer of the file route, status code included, with the
    message reworded. *)
Theorem delete_folder_same_as_delete_file (id : string) (w : world D) :
  let as_file := deleteFileFromDrive id w in
  let as_folder := deleteFolderFromDrive id w in
  fst as_folder = fst as_file
  ∧ drive (snd as_folder) = drive (snd as_file)
  ∧ fs (snd as_folder) = fs (snd as_file)
  ∧ calls_of (new_events w (snd as_folder)) = [FilesDelete id]
  ∧ calls_of (new_events w (snd as_file)) = [FilesDelete id]
  ∧ unlabel <$> trace (snd as_folder) = unlabel <$> trace (snd as_file)
  ∧ http_status (fst (delete_drive_folder id w))
      = http_status (fst (delete_drive_file id w))
  ∧ drive (snd (delete_drive_folder id w))
      = drive (snd (delete_drive_file id w))
  ∧ new_events w (snd as_folder)
      = folder_label <$> new_events w (snd as_file)
  ∧ fst (delete_drive_folder id w)
      = folder_wording (fst (delete_drive_file id w))
  ∧ fs (snd (delete_drive_folder id w))
      = fs (snd (delete_drive_file id w))
  ∧ new_events w (snd (delete_drive_folder id w))
      = folder_label <$> new_events w (snd (delete_drive_file id w)).
Proof.
  cbn zeta. unfold delete_drive_folder, delete_drive_file.
  unfold deleteFileFromDrive, deleteFolderFromDrive, new_events.
  rewrite !delete_route_run, !delete_run.
  destruct (request _ (drive w)) as [[e|r] d1]; cbn [fst snd trace fs drive];
    rewrite ?drop_app_length, ?fmap_app.
  - by split_and!.
  - destruct (decide (status r = 204)); by split_and!.
Qed.

End Deletion.

(** C9, as the specification has it, fails.  The two deletions are not the
    same function, and the two routes do not behave identically: when the
    backend rejects the deletion of [f7] the folder deletion logs another
    label than the file deletion, and when it deletes [f0] the folder route
    answers in other words than the file route. *)
Lemma delete_folder_differs_from_delete_file :
  deleteFolderFromDrive "f7" Sample.stocked
    ≠ deleteFileFromDrive "f7" Sample.stocked
  ∧ delete_drive_folder "f0" Sample.stocked
    ≠ delete_drive_file "f0" Sample.stocked.
Proof.
  split; intros Heq.
  - apply (f_equal (λ out, trace (snd out))) in Heq.
    vm_compute in Heq. discriminate.
  - apply (f_equal (λ out, http_body (fst out))) in Heq.
    vm_compute in Heq. discriminate.
Qed.

(** ** Listing and search *)

Section Listing.
Context {D : Type} `{Drive D}.

(** C6.  Listing files with the content type omitted issues one backend
    call, a listing whose query leaves out the folder type; with a backend
    that honours that query, no entry of the returned list is a folder. *)
Theorem listing_without_filter_has_no_folder (w : world D) :
  let run := getAllFilesFromDrive VUndefined w in
  calls_of (new_events w (snd run)) =
    [FilesList "mimeType != 'application/vnd.google-apps.folder'"
       "files(id, name, mimeType, webViewLink, webContentLink)"]
  ∧ (honours_exclusion D →
     ∀ l o, fst run = inr (Some l) → o ∈ l →
       o !! "mimeType" ≠ Some (VStr "application/vnd.google-apps.folder")).
Proof.
  cbn zeta. unfold getAllFilesFromDrive, new_events. cbn [default_param].
  rewrite list_run. unfold list_query. cbn [truthy].
  destruct (request _ (drive w)) as [[e|r] d1] eqn:Hreq; cbn;
    rewrite drop_app_length; (split; [done|]).
  - done.
  - intros Hex l o [= Hl] Ho. by eapply Hex.
Qed.

(** The search function sends its argument between two quotes, as it is. *)
Lemma search_call (fileName : string) (w : world D) :
  calls_of (new_events w (snd (searchFileInDrive fileName w))) =
    [FilesList ("name contains '" +:+ fileName +:+ "'")
       "files(id, name, mimeType)"].
Proof.
  unfold searchFileInDrive, new_events. rewrite list_run.
  destruct (request _ (drive w)) as [[e|r] d1]; cbn;
    by rewrite drop_app_length.
Qed.

End Listing.

(** ** The query literal *)

Lemma append_cons (a : ascii) (s r : string) :
  String a s +:+ r = String a (s +:+ r).
Proof. reflexivity. Qed.

Lemma append_nil_l (s : string) : "" +:+ s = s.
Proof. reflexivity. Qed.

Lemma string_app_assoc (a b c : string) : (a +:+ b) +:+ c = a +:+ (b +:+ c).
Proof.
  induction a as [|x a IH]; [done|]. by rewrite !append_cons, IH.
Qed.

Lemma lex_literal_backslash (c : ascii) (s : string) :
  lex_literal (String "\" (String c s)) =
    match lex_literal s with
    | Some (lit, tl) => Some (String c lit, tl)
    | None => None
    end.
Proof. reflexivity. Qed.

Lemma lex_literal_plain (c : ascii) (s : string) :
  Ascii.eqb c "'" = false → Ascii.eqb c "\" = false →
  lex_literal (String c s) =
    match lex_literal s with
    | Some (lit, tl) => Some (String c lit, tl)
    | None => None
    end.
Proof. intros Hq Hb. cbn [lex_literal]. by rewrite Hq, Hb. Qed.

Lemma lex_escape (t rest : string) :
  lex_literal (escape_literal t +:+ String "'" rest) = Some (t, rest).
Proof.
  induction t as [|c t IH]; [done|].
  cbn [escape_literal].
  destruct (Ascii.eqb c "'") eqn:Hq; cbn [orb]; rewrite ?append_cons.
  { by rewrite lex_literal_backslash, IH. }
  destruct (Ascii.eqb c "\") eqn:Hb; rewrite !append_cons.
  - by rewrite lex_literal_backslash, IH.
  - by rewrite lex_literal_plain, IH.
Qed.

(** The escaped query is read back by the backend as the filter on [term]. *)
Lemma contains_filter_parses (term : string) :
  parse_query (contains_filter term) = Some (NameContains term).
Proof.
  unfold contains_filter, parse_query.
  rewrite !append_cons, append_nil_l. cbn [strip_prefix Ascii.eqb Bool.eqb].
  unfold whole_literal. by rewrite lex_escape.
Qed.

Lemma escape_plain (t : string) :
  has_char "'" t = false → has_char "\" t = false → escape_literal t = t.
Proof.
  unfold has_char. induction t as [|c t IH]; [done|].
  cbn [list_ascii_of_string existsb escape_literal].
  intros [Hq Ht]%orb_false_elim [Hb Ht']%orb_false_elim.
  rewrite (Ascii.eqb_sym c "'"), Hq, (Ascii.eqb_sym c "\"), Hb. cbn [orb].
  by rewrite IH.
Qed.

(** On a term free of quotes and backslashes the raw query is the filter. *)
Lemma search_query_plain (t : string) :
  has_char "'" t = false → has_char "\" t = false →
  search_query t = contains_filter t
  ∧ parse_query (search_query t) = Some (NameContains t).
Proof.
  intros Hq Hb. unfold search_query.
  assert (E : "name contains '" +:+ t +:+ "'" = contains_filter t).
  { unfold contains_filter. by rewrite escape_plain. }
  rewrite E. split; [done|]. apply contains_filter_parses.
Qed.

Section Search.
Context {D : Type} `{Drive D}.

(** C10.  For every term the search issues one listing whose query is
    [name contains '] followed by the term as given and a closing quote;
    on some term holding a quote this is not the filter on that term:
    it differs from the escaped query, and the query language does not
    read it as "name contains term". *)
Theorem search_query_unescaped :
  (∀ (fileName : string) (w : world D),
     calls_of (new_events w (snd (searchFileInDrive fileName w))) =
       [FilesList ("name contains '" +:+ fileName +:+ "'")
          "files(id, name, mimeType)"])
  ∧ (∃ term,
       has_char "'" term = true
       ∧ search_query term ≠ contains_filter term
       ∧ parse_query (search_query term) ≠ Some (NameContains term)
       ∧ parse_query (contains_filter term) = Some (NameContains term)).
Proof.
  split; [apply search_call|].
  exists "it's". split; [done|]. split; [by vm_compute|].
  split; [by vm_compute|]. apply contains_filter_parses.
Qed.

End Search.

(** ** Requests refused before any remote call *)

Section Refusals.
Context {D : Type} `{Drive D}.

(** C7.  [PUT /drive/file/:fileId] without a file part, and
    [POST /drive/folder] with an empty [folderName], are answered 400 and
    leave the world as it was: the backend is not called, nothing is
    staged, nothing is logged. *)
Theorem missing_input_is_refused_locally :
  (∀ (dirname fileId : string) (now : Z) (w : world D),
     put_drive_file dirname fileId now None w
     = (Http 400 (Send "No file provided for update."), w))
  ∧ (∀ (parentId : value) (w : world D),
       post_drive_folder (VStr "") parentId w
       = (Http 400 (Send "Folder name is required."), w)).
Proof. by split. Qed.

(** Any falsy [folderName] (missing, null, empty, zero, false) is refused
    the same way. *)
Lemma falsy_folder_name_refused (folderName parentId : value) (w : world D) :
  truthy folderName = false →
  post_drive_folder folderName parentId w
  = (Http 400 (Send "Folder name is required."), w).
Proof. intros Hf. unfold post_drive_folder, route. cbn. by rewrite Hf. Qed.

End Refusals.

(** ** Where uploads are staged *)

Lemma prefix_app (d a b : string) :
  String.prefix (d +:+ a) (d +:+ b) = String.prefix a b.
Proof.
  induction d as [|x d IH]; [done|]. rewrite !append_cons. cbn [String.prefix].
  by destruct (ascii_dec x x).
Qed.

Lemma in_uploadsDir (dirname name : string) :
  in_dir (uploadsDir dirname) (path_join (uploadsDir dirname) name) = true
  ∧ in_dir (imgDir dirname) (path_join (uploadsDir dirname) name) = false.
Proof.
  unfold in_dir, uploadsDir, imgDir, path_join.
  rewrite !string_app_assoc, !prefix_app.
  rewrite !append_cons, !append_nil_l. split; [by destruct name|done].
Qed.

Lemma in_imgDir (dirname name : string) :
  in_dir (imgDir dirname) (path_join (imgDir dirname) name) = true
  ∧ in_dir (uploadsDir dirname) (path_join (imgDir dirname) name) = false.
Proof.
  unfold in_dir, uploadsDir, imgDir, path_join.
  rewrite !string_app_assoc, !prefix_app.
  rewrite !append_cons, !append_nil_l. split; [by destruct name|done].
Qed.

Section StagingDirectory.
Context {D : Type} `{Drive D}.

(** What the two Drive upload routes stage: nothing without a file part
    or with a part under another field, else one file, named by the clock
    and the original name, under [uploadsDir]. *)
Lemma upload_route_staging
    (field : string) (ok : data → http_response) (ko0 ko : http_response)
    (dirname : string) (now : Z) (req_part : option part) (w : world D)
    (q : string) :
  Staged q ∈
    new_events w
      (snd (route (upload dirname field now req_part) (fun req_file =>
              match req_file with
              | None => ret ko0
              | Some file =>
                  try_catch
                    (let* result :=
                       uploadFileToDrive file (VStr (mimetype file))
                         VUndefined in
                     ret (ok result))
                    (fun _ => ret ko)
              end) w)) →
  ∃ prt, req_part = Some prt
         ∧ fieldname prt = field
         ∧ q = path_join (uploadsDir dirname) (timestamped now prt).
Proof.
  unfold route, upload, single, new_events.
  destruct req_part as [prt|]; cbn.
  2: { rewrite drop_all. set_solver. }
  case_decide; cbn.
  2: { rewrite drop_all. set_solver. }
  unfold try_catch, bind. rewrite uploadFileToDrive_run. cbn zeta.
  intros Hq. exists prt. split; [done|]. split; [done|].
  revert Hq.
  repeat split_request; repeat case_decide; cbn;
    rewrite <- app_assoc, drop_app_length; set_solver.
Qed.

(** C3, as the code has it.  Both upload routes of the Drive server, the
    image one and the general one, stage every temporary file directly
    under the general directory [uploadsDir], and so outside the image
    directory [imgDir]. *)
Theorem drive_uploads_staged_in_uploadsDir
    (dirname : string) (now : Z) (req_part : option part) (w : world D)
    (q : string) :
  Staged q ∈
    new_events w (snd (post_drive_upload_image dirname now req_part w))
  ∨ Staged q ∈
    new_events w (snd (post_drive_upload_file dirname now req_part w)) →
  ∃ prt, req_part = Some prt
         ∧ q = path_join (uploadsDir dirname) (timestamped now prt)
         ∧ in_dir (uploadsDir dirname) q = true
         ∧ in_dir (imgDir dirname) q = false.
Proof.
  unfold post_drive_upload_image, post_drive_upload_file.
  intros [Hq|Hq]; apply upload_route_staging in Hq as (prt & -> & _ & ->);
    exists prt; (split; [done|]); (split; [done|]); apply in_uploadsDir.
Qed.

(** End to end: a file sent to an upload route is staged, and when the
    route has answered it is gone from the disk exactly if the answer is
    200, that is, exactly if the remote push succeeded. *)
Lemma upload_route_reclaims
    (dirname : string) (now : Z) (prt : part) (w : world D) :
  fieldname prt = "file" →
  let p := path_join (uploadsDir dirname) (timestamped now prt) in
  let out := post_drive_upload_file dirname now (Some prt) w in
  (http_status (fst out) = 200 ∧ p ∉ fs (snd out))
  ∨ (http_status (fst out) = 500 ∧ p ∈ fs (snd out)).
Proof.
  intros Hfield. cbn zeta.
  unfold post_drive_upload_file, route, upload, single.
  rewrite decide_True by done. cbn [storage st_destination st_filename].
  unfold try_catch, bind. rewrite uploadFileToDrive_run. cbn zeta.
  cbn [path fs drive trace].
  repeat split_request; [right|right|]; cbn; try (split; [done|set_solver]).
  destruct (decide _) as [Hin|Hout]; cbn; [left|set_solver].
  split; [done|set_solver].
Qed.

End StagingDirectory.

(** In the local-only server the image route stages under [imgDir] and the
    general route under [uploadsDir]. *)
Lemma local_uploads_staged_by_kind
    (dirname : string) (now : Z) (prt : part) (w : world unit) :
  (fieldname prt = "image" →
   new_events w
     (snd (LocalServer.post_upload_image dirname now (Some prt) w))
   = [Staged (path_join (imgDir dirname) (timestamped now prt))])
  ∧ (fieldname prt = "file" →
     new_events w
       (snd (LocalServer.post_upload_file dirname now (Some prt) w))
     = [Staged (path_join (uploadsDir dirname) (timestamped now prt))]).
Proof.
  unfold LocalServer.post_upload_image, LocalServer.post_upload_file, route,
    LocalServer.uploadImage, LocalServer.uploadFile, single, new_events.
  split; intros Hf; rewrite decide_True by done; cbn;
    by rewrite drop_app_length.
Qed.

(** C3, as the specification has it, fails: the image route of the Drive
    server stages [photo.png] under [/app/uploads], not under [/app/img]. *)
Lemma image_route_stages_outside_imgDir :
  ¬ (∀ q,
       Staged q ∈
         new_events Sample.fresh
           (snd (post_drive_upload_image "/app" 17 (Some Sample.photo)
                   Sample.fresh)) →
       in_dir (imgDir "/app") q = true).
Proof.
  intros Hclaim. specialize (Hclaim "/app/uploads/17-photo.png").
  assert (Hfalse : in_dir (imgDir "/app") "/app/uploads/17-photo.png" = true).
  { apply Hclaim. vm_compute. apply list_elem_of_here. }
  vm_compute in Hfalse. discriminate.
Qed.

(** ** The reference backend honours its contracts *)

Lemma sim_honours_mask : honours_mask SimDrive.t.
Proof.
  intros res med d r d'. unfold request, SimDrive.sim_drive, SimDrive.step.
  case_decide; [|done]. intros [= <- <-]. cbn [rdata props].
  intros k [v Hk]%elem_of_dom.
  apply map_lookup_filter_Some in Hk as [_ Hk]. cbn [fst] in Hk.
  change (SimDrive.mask "id, name") with ["id"; "name"] in Hk.
  set_solver.
Qed.

Lemma sim_honours_exclusion : honours_exclusion SimDrive.t.
Proof.
  intros fields d r d' l o.
  unfold request, SimDrive.sim_drive, SimDrive.step.
  change (parse_query "mimeType != 'application/vnd.google-apps.folder'")
    with (Some (MimeIsNot folder_mime)).
  intros [= <- <-]. cbn [rdata files].
  intros [= <-] (o' & -> & Hin)%list_elem_of_fmap.
  apply list_elem_of_In, filter_In in Hin as [_ Hsel].
  cbn [SimDrive.selects] in Hsel.
  apply negb_true_iff, bool_decide_eq_false in Hsel.
  intros Hp. unfold SimDrive.project in Hp.
  by apply map_lookup_filter_Some in Hp as [Hp _].
Qed.

(** ** The theorems at work on sample requests *)

Lemma staged_file_reclaimed_exactly_on_success_witness :
  ("/app/uploads/17-photo.png" ∉
     fs (snd (run_action
                (Upload Sample.photo_file (VStr "image/png") VUndefined)
                Sample.staged_world)))
  ∧ fst (run_action
           (Upload Sample.photo_file (VStr "image/png") VUndefined)
           Sample.private_world)
    = inl (ApiError (ApiErr 403 "Sharing is not allowed"))
  ∧ "/app/uploads/17-photo.png" ∈
      fs (snd (run_action
                 (Update "f9" Sample.photo_file (VStr "image/png"))
                 Sample.staged_world)).
Proof.
  split; [|split].
  - eapply (proj1 (staged_file_reclaimed_exactly_on_success
                     (Upload Sample.photo_file (VStr "image/png") VUndefined)
                     Sample.staged_world)).
    vm_compute. reflexivity.
  - eapply (proj2 (staged_file_reclaimed_exactly_on_success
                     (Upload Sample.photo_file (VStr "image/png") VUndefined)
                     Sample.private_world)).
    vm_compute. reflexivity.
  - eapply (proj2 (staged_file_reclaimed_exactly_on_success
                     (Update "f9" Sample.photo_file (VStr "image/png"))
                     Sample.staged_world)).
    + vm_compute. reflexivity.
    + vm_compute. set_solver.
Defined.

Lemma push_settles_before_cleanup_witness :
  events_of (Upload Sample.photo_file (VStr "image/png") VUndefined)
    Sample.staged_world !! 5%nat
  = Some (UnlinkSync "/app/uploads/17-photo.png")
  ∧ ∀ j e,
      events_of (Upload Sample.photo_file (VStr "image/png") VUndefined)
        Sample.staged_world !! j = Some e →
      is_remote e = true → (j < 5)%nat.
Proof.
  assert (Hcleanup :
    events_of (Upload Sample.photo_file (VStr "image/png") VUndefined)
      Sample.staged_world !! 5%nat
    = Some (UnlinkSync "/app/uploads/17-photo.png")) by (vm_compute; reflexivity).
  split; [exact Hcleanup|].
  exact (proj1 (proj2 (push_settles_before_cleanup _ _ _ _ Hcleanup))).
Defined.

Lemma upload_creates_then_grants_witness :
  calls_of
    (new_events Sample.staged_world
       (snd (uploadFileToDrive Sample.photo_file (VStr "image/png") VUndefined
               Sample.staged_world)))
  = [create_call Sample.photo_file (VStr "image/png") VUndefined;
     PermissionsCreate (VStr "f0") "reader" "anyone"]
  ∧ ∀ result,
      fst (uploadFileToDrive Sample.photo_file (VStr "image/png") VUndefined
             Sample.staged_world) = inr result →
      dom (props result) ⊆ ({["id"; "name"]} : gset string).
Proof.
  split.
  - pose proof (upload_creates_then_grants Sample.photo_file
                  (VStr "image/png") VUndefined Sample.staged_world)
      as (Hok & _ & _).
    cbn zeta in Hok.
    edestruct Hok as (_ & _ & ->).
    + vm_compute. reflexivity.
    + vm_compute. reflexivity.
    + vm_compute. set_solver.
    + vm_compute. reflexivity.
  - exact (proj2 (proj2 (upload_creates_then_grants Sample.photo_file
                           (VStr "image/png") VUndefined Sample.staged_world))
             sim_honours_mask).
Defined.

Lemma metadata_public_link_witness :
  ∃ m,
    fst (getFileMetadataFromDrive "f0" Sample.stocked) = inr m
    ∧ props m !! "publicDownloadLink"
      = Some (VStr "https://drive.google.com/uc?id=f0").
Proof.
  edestruct (metadata_public_link "f0" Sample.stocked)
    as (m & Hm & _ & _ & _ & Hlink & _).
  { vm_compute. reflexivity. }
  exists m. split; [exact Hm|]. apply Hlink. vm_compute. reflexivity.
Defined.

Lemma delete_route_status_witness :
  fst (delete_drive_file "f0" Sample.stocked)
  = Http 200 (Send "File deleted from Drive successfully.")
  ∧ fst (delete_drive_file "f7" Sample.stocked)
    = Http 500 (Send "Failed to delete file from Drive.").
Proof.
  split.
  - apply (proj1 (delete_route_status "f0" Sample.stocked)).
    eexists. split; [vm_compute; reflexivity|reflexivity].
  - eapply (proj2 (proj2 (delete_route_status "f7" Sample.stocked))).
    vm_compute. reflexivity.
Defined.

Lemma listing_without_filter_has_no_folder_witness :
  ∃ l,
    fst (getAllFilesFromDrive VUndefined Sample.stocked) = inr (Some l)
    ∧ length l = 1%nat
    ∧ ∀ o, o ∈ l →
        o !! "mimeType" ≠ Some (VStr "application/vnd.google-apps.folder").
Proof.
  eexists. split; [vm_compute; reflexivity|]. split; [reflexivity|].
  intros o.
  apply (proj2 (listing_without_filter_has_no_folder Sample.stocked)
           sim_honours_exclusion).
  vm_compute. reflexivity.
Defined.

Lemma drive_uploads_staged_in_uploadsDir_witness :
  ∃ prt,
    Some Sample.photo = Some prt
    ∧ "/app/uploads/17-photo.png"
      = path_join (uploadsDir "/app") (timestamped 17 prt)
    ∧ in_dir (uploadsDir "/app") "/app/uploads/17-photo.png" = true
    ∧ in_dir (imgDir "/app") "/app/uploads/17-photo.png" = false.
Proof.
  apply (drive_uploads_staged_in_uploadsDir (D := SimDrive.t) "/app" 17
           (Some Sample.photo) Sample.fresh "/app/uploads/17-photo.png").
  left. vm_compute. apply list_elem_of_here.
Defined.

(** * Further properties *)

(** ** The routes without an upload *)

Section PlainRoutes.
Context {D : Type} `{Drive D}.

Lemma relay_route_run {A : Type} (f : M D A) (ok : A → http_response)
    (ko : http_response) (w : world D) :
  route (ret tt) (fun _ =>
    try_catch (let* x := f in ret (ok x)) (fun _ => ret ko)) w =
    match f w with
    | (inr a, w') => (ok a, w')
    | (inl _, w') => (ko, w')
    end.
Proof.
  unfold route, try_catch, bind, ret. by destruct (f w) as [[e|a] w'].
Qed.

Lemma getFileMetadataFromDrive_run (fileId : string) (w : world D) :
  getFileMetadataFromDrive fileId w =
    let c :=
      FilesGet fileId
        "id, name, mimeType, webViewLink, webContentLink, parents" in
    match request c (drive w) with
    | (inl e, d1) =>
        (inl (ApiError e),
         World (fs w) d1
           (trace w ++
              [Invoke c; Settled (inl e);
               ConsoleError "Error getting file metadata from Drive:"
                 (ApiError e)]))
    | (inr r, d1) =>
        (inr (Data
                (<["publicDownloadLink" :=
                     VStr ("https://drive.google.com/uc?id="
                           +:+ to_string (get_prop (props (rdata r)) "id"))]>
                   (props (rdata r)))
                (files (rdata r))),
         World (fs w) d1 (trace w ++ [Invoke c; Settled (inr r)]))
    end.
Proof.
  unfold getFileMetadataFromDrive, try_catch, bind, await, console_error,
    emit, throw, ret.
  cbn -[request].
  destruct (request _ (drive w)) as [[e|r] d1]; cbn -[request];
    by rewrite <- ?app_assoc.
Qed.

Lemma createFolderInDrive_run (folderName parentId : value) (w : world D) :
  createFolderInDrive folderName parentId w =
    let c :=
      FilesCreate
        {| name := folderName;
           mimeType := VStr "application/vnd.google-apps.folder";
           parents := Some (if truthy parentId then [parentId] else []) |}
        None "id, name" in
    match request c (drive w) with
    | (inl e, d1) =>
        (inl (ApiError e),
         World (fs w) d1
           (trace w ++
              [Invoke c; Settled (inl e);
               ConsoleError "Error creating folder in Drive:" (ApiError e)]))
    | (inr r, d1) =>
        (inr (rdata r),
         World (fs w) d1 (trace w ++ [Invoke c; Settled (inr r)]))
    end.
Proof.
  unfold createFolderInDrive, try_catch, bind, await, console_error,
    emit, throw, ret.
  cbn -[request]. rewrite parents_default.
  destruct (request _ (drive w)) as [[e|r] d1]; cbn -[request];
    by rewrite <- ?app_assoc.
Qed.

(** Every route of the table runs as the table says. *)
Lemma serve_run (r : plain_route) (w : world D) :
  serve r w =
    match backend_calls r with
    | [] => (Http 400 (Send "Folder name is required."), w)
    | c :: _ =>
        match request c (drive w) with
        | (inl e, d1) =>
            (Http 500 (Send (failure_text r)),
             World (fs w) d1
               (trace w ++
                  [Invoke c; Settled (inl e);
                   ConsoleError (log_label r) (ApiError e)]))
        | (inr resp, d1) =>
            (success_answer r resp,
             World (fs w) d1 (trace w ++ [Invoke c; Settled (inr resp)]))
        end
    end.
Proof.
  destruct r as [fileId|fileName| | |folderName parentId|fileId|folderId];
    cbn [serve backend_calls failure_text log_label success_answer].
  - unfold get_drive_file_metadata.
    rewrite relay_route_run, getFileMetadataFromDrive_run. cbn zeta.
    by destruct (request _ (drive w)) as [[e|r] d1].
  - unfold get_drive_search, searchFileInDrive, search_query.
    rewrite relay_route_run, list_run.
    by destruct (request _ (drive w)) as [[e|r] d1].
  - unfold get_drive_files, getAllFilesFromDrive. cbn [default_param].
    rewrite relay_route_run, list_run. unfold list_query. cbn [truthy].
    by destruct (request _ (drive w)) as [[e|r] d1].
  - unfold get_drive_folders, getAllFoldersFromDrive.
    rewrite relay_route_run, list_run.
    by destruct (request _ (drive w)) as [[e|r] d1].
  - unfold post_drive_folder.
    destruct (truthy folderName) eqn:Hname; cbn [negb].
    + rewrite relay_route_run, createFolderInDrive_run. cbn zeta.
      by destruct (request _ (drive w)) as [[e|r] d1].
    + done.
  - unfold delete_drive_file, deleteFileFromDrive.
    rewrite delete_route_run.
    by destruct (request _ (drive w)) as [[e|r] d1].
  - unfold delete_drive_folder, deleteFolderFromDrive.
    rewrite delete_route_run.
    by destruct (request _ (drive w)) as [[e|r] d1].
Qed.

(** X1.  A route of the table issues exactly the backend calls the table
    lists for it, one at most, and leaves the local file system as it
    was. *)
Theorem plain_routes_call_once_and_keep_disk
    (r : plain_route) (w : world D) :
  calls_of (new_events w (snd (serve r w))) = backend_calls r
  ∧ (length (backend_calls r) ≤ 1)%nat
  ∧ fs (snd (serve r w)) = fs w.
Proof.
  rewrite serve_run. unfold new_events.
  assert (Hshape : backend_calls r = []
                   ∨ ∃ c, backend_calls r = [c]).
  { destruct r; cbn; eauto. destruct (truthy folderName); eauto. }
  destruct Hshape as [-> | [c ->]].
  - cbn. rewrite drop_all. split_and!; [done|lia|done].
  - destruct (request c (drive w)) as [[e|resp] d1]; cbn;
      rewrite drop_app_length; (split_and!; [done|lia|done]).
Qed.

(** X2.  When the backend rejects the call of a route, the client gets 500
    with the route's fixed message, whatever the error was; the error itself
    goes to the log, once, under the label of the function that failed. *)
Theorem plain_routes_hide_backend_errors
    (r : plain_route) (w : world D) (c : call) (e : api_error) (d' : D) :
  backend_calls r = [c] →
  request c (drive w) = (inl e, d') →
  fst (serve r w) = Http 500 (Send (failure_text r))
  ∧ new_events w (snd (serve r w)) =
      [Invoke c; Settled (inl e); ConsoleError (log_label r) (ApiError e)]
  ∧ drive (snd (serve r w)) = d'.
Proof.
  intros Hc Hreq. rewrite serve_run, Hc, Hreq. unfold new_events. cbn.
  by rewrite drop_app_length.
Qed.

End PlainRoutes.

Section PlainRoutesNever.
Context {D : Type} `{Drive D}.

(** X3.  No route of the table ever grants a permission: metadata, search,
    listings, folder creation and the two deletions leave sharing alone; a
    created folder, unlike an uploaded file, is not made public. *)
Theorem plain_routes_never_grant
    (r : plain_route) (w : world D) (fileId : value) (role type : string) :
  Invoke (PermissionsCreate fileId role type)
    ∉ new_events w (snd (serve r w)).
Proof.
  rewrite serve_run. unfold new_events.
  destruct (backend_calls r) as [|c l] eqn:Hcalls.
  { cbn. rewrite drop_all. set_solver. }
  assert (Hc : ∀ v ro ty, c ≠ PermissionsCreate v ro ty).
  { intros v ro ty ->. destruct r; cbn in Hcalls; try done.
    by destruct (truthy folderName). }
  destruct (request c (drive w)) as [[e|resp] d1]; cbn;
    rewrite drop_app_length; intros Hin;
    repeat (apply elem_of_cons in Hin as [Hin|Hin];
            [first [discriminate Hin
                   |injection Hin as Hin; symmetry in Hin; by eapply Hc]|]);
    by apply elem_of_nil in Hin.
Qed.

(** X4.  Listing files treats every falsy content type (missing, null, the
    empty string, zero, false) as no filter at all and asks for everything
    but folders; a non-empty content type is placed as it is between the
    quotes of an equality on [mimeType]. *)
Theorem listing_filter_by_truthiness :
  (∀ (v : value) (w : world D),
     truthy v = false →
     calls_of (new_events w (snd (getAllFilesFromDrive v w))) =
       [FilesList "mimeType != 'application/vnd.google-apps.folder'"
          "files(id, name, mimeType, webViewLink, webContentLink)"])
  ∧ (∀ (t : string) (w : world D),
       t ≠ "" →
       calls_of (new_events w (snd (getAllFilesFromDrive (VStr t) w))) =
         [FilesList ("mimeType = '" +:+ t +:+ "'")
            "files(id, name, mimeType, webViewLink, webContentLink)"]).
Proof.
  split.
  - intros v w Hv. unfold getAllFilesFromDrive, new_events.
    rewrite list_run. unfold list_query.
    assert (Hd : truthy (default_param v VNull) = false)
      by (by destruct v).
    rewrite Hd.
    destruct (request _ (drive w)) as [[e|r] d1]; cbn;
      by rewrite drop_app_length.
  - intros t w Ht. unfold getAllFilesFromDrive, new_events.
    rewrite list_run. unfold list_query. cbn [default_param truthy].
    assert (Hne : String.eqb t "" = false) by (by apply String.eqb_neq).
    rewrite Hne. cbn [negb to_string].
    destruct (request _ (drive w)) as [[e|r] d1]; cbn;
      by rewrite drop_app_length.
Qed.

(** X5.  When the creation succeeds and the grant fails, the upload throws
    the grant's error, keeps the staged file, and has issued the creation
    and the grant and nothing else: the file created on the backend is
    neither shared nor removed. *)
Theorem upload_grant_failure_is_not_undone
    (file : File) (fileType folderId : value) (w : world D)
    (r : response) (d1 : D) (e : api_error) (d2 : D) :
  request (create_call file fileType folderId) (drive w) = (inr r, d1) →
  request (grant_call r) d1 = (inl e, d2) →
  let run := uploadFileToDrive file fileType folderId w in
  fst run = inl (ApiError e)
  ∧ calls_of (new_events w (snd run)) =
      [create_call file fileType folderId; grant_call r]
  ∧ drive (snd run) = d2
  ∧ fs (snd run) = fs w.
Proof.
  intros Hc Hg. cbn zeta. unfold new_events.
  rewrite uploadFileToDrive_run. cbn zeta. rewrite Hc, Hg. cbn.
  by rewrite drop_app_length.
Qed.

(** X6.  [PUT /drive/file/:fileId] with a file part under [file] stages the
    part under [uploadsDir], asks the backend for one update of exactly the
    identifier in the address, with the part's name and type, and answers
    200 with the backend's data, the staged file removed, when the update
    succeeds; when it fails the answer is 500 and the staged file stays on
    disk. *)
Theorem put_drive_route_outcome
    (dirname fileId : string) (now : Z) (prt : part) (w : world D) :
  fieldname prt = "file" →
  let p := path_join (uploadsDir dirname) (timestamped now prt) in
  let c :=
    FilesUpdate fileId
      {| name := VStr (part_originalname prt);
         mimeType := VStr (part_mimetype prt);
         parents := None |}
      (Some {| media_mimeType := VStr (part_mimetype prt); body := p |})
      "id, name" in
  let out := put_drive_file dirname fileId now (Some prt) w in
  calls_of (new_events w (snd out)) = [c]
  ∧ match fst (request c (drive w)) with
    | inr r =>
        fst out =
          Http 200
            (JsonResult "File updated in Drive successfully" "file"
               (rdata r))
        ∧ p ∉ fs (snd out)
    | inl _ =>
        fst out = Http 500 (Send "Failed to update file in Drive.")
        ∧ p ∈ fs (snd out)
    end.
Proof.
  intros Hfield. cbn zeta.
  unfold put_drive_file, route, upload, single, new_events.
  rewrite decide_True by done. cbn [storage st_destination st_filename].
  unfold try_catch, bind. rewrite updateFileInDrive_run. cbn zeta.
  cbn [path fs drive trace originalname mimetype]. unfold update_call.
  cbn [path originalname].
  destruct (request _ (drive w)) as [[e|r] d1]; cbn.
  - rewrite <- app_assoc, drop_app_length. split; [done|].
    split; [done|set_solver].
  - rewrite decide_True by set_solver. cbn.
    rewrite <- app_assoc, drop_app_length. split; [done|].
    split; [done|set_solver].
Qed.

(** X16.  [POST /drive/upload/image] and [POST /drive/upload/file], given a
    part under their field, answer 200 with the data of the created file and
    have removed the staged file when creation and grant both succeed; in
    every other case they answer 500 with their fixed message and the staged
    file is still on disk. *)
Theorem drive_upload_routes_outcome
    (dirname : string) (now : Z) (prt : part) (w : world D) :
  let p := path_join (uploadsDir dirname) (timestamped now prt) in
  let file :=
    MkFile (part_originalname prt) (part_mimetype prt) (uploadsDir dirname)
      (timestamped now prt) p in
  let push :=
    fst (remote_push (Upload file (VStr (part_mimetype prt)) VUndefined)
           (drive w)) in
  (fieldname prt = "image" →
   let out := post_drive_upload_image dirname now (Some prt) w in
   match push with
   | inr r =>
       fst out =
         Http 200
           (JsonResult "Image uploaded to Drive successfully" "file"
              (rdata r))
       ∧ p ∉ fs (snd out)
   | inl _ =>
       fst out = Http 500 (Send "Failed to upload image to Drive.")
       ∧ p ∈ fs (snd out)
   end)
  ∧ (fieldname prt = "file" →
     let out := post_drive_upload_file dirname now (Some prt) w in
     match push with
     | inr r =>
         fst out =
           Http 200
             (JsonResult "File uploaded to Drive successfully" "file"
                (rdata r))
         ∧ p ∉ fs (snd out)
     | inl _ =>
         fst out = Http 500 (Send "Failed to upload file to Drive.")
         ∧ p ∈ fs (snd out)
     end).
Proof.
  cbn zeta. split; intros Hfield;
    unfold post_drive_upload_image, post_drive_upload_file, route, upload,
      single;
    rewrite decide_True by done;
    cbn [storage st_destination st_filename remote_push];
    unfold try_catch, bind; rewrite uploadFileToDrive_run; cbn zeta;
    cbn [path fs drive trace originalname mimetype];
    (destruct (request _ (drive w)) as [[e|r] d1]; cbn;
     [split; [done|set_solver]|]);
    (destruct (request _ d1) as [[e|g] d2]; cbn;
     [split; [done|set_solver]|]);
    rewrite decide_True by set_solver; cbn; (split; [done|set_solver]).
Qed.

End PlainRoutesNever.

(** ** Names of staged files *)

Lemma digits_cons (c : ascii) (s : string) :
  digits (String c s) = true ↔ is_digit c = true ∧ digits s = true.
Proof.
  unfold digits. cbn [list_ascii_of_string forallb]. apply andb_true_iff.
Qed.

Lemma pretty_N_char_digit (x : N) : is_digit (pretty_N_char x) = true.
Proof. unfold pretty_N_char. by repeat case_match. Qed.

Lemma pretty_N_go_digits (x : N) (s : string) :
  digits s = true → digits (pretty_N_go x s) = true.
Proof.
  revert s. induction (N.lt_wf_0 x) as [x _ IH]. intros s Hs.
  assert (x = 0 ∨ 0 < x)%N as [->|Hpos] by lia.
  - by rewrite pretty_N_go_0.
  - rewrite pretty_N_go_step by done. apply IH.
    + by apply N.div_lt.
    + apply digits_cons. split; [apply pretty_N_char_digit|done].
Qed.

Lemma pretty_clock_digits (now : Z) :
  (0 ≤ now)%Z → digits (pretty now) = true.
Proof.
  intros Hnow. destruct now as [|n|n]; [done| |lia].
  unfold pretty, pretty_Z, pretty, pretty_positive, pretty, pretty_N.
  case_decide; [done|]. by apply pretty_N_go_digits.
Qed.

Lemma digits_dash_split (u v x y : string) :
  digits u = true → digits v = true →
  u +:+ String "-" x = v +:+ String "-" y → u = v ∧ x = y.
Proof.
  revert v. induction u as [|a u IH]; intros [|b v];
    rewrite ?append_cons, ?append_nil_l; intros Hu Hv Heq.
  - by injection Heq as ->.
  - injection Heq as <- _. by apply digits_cons in Hv as [? _].
  - injection Heq as -> _. by apply digits_cons in Hu as [? _].
  - injection Heq as -> Heq.
    apply digits_cons in Hu as [_ Hu]. apply digits_cons in Hv as [_ Hv].
    by destruct (IH v Hu Hv Heq) as [-> ->].
Qed.

(** X7.  Two uploads are staged under the same path exactly when they carry
    the same original name and arrive at the same clock reading: the name
    given by the storage separates any other two uploads, and does not
    separate these. *)
Theorem staged_paths_collide_iff
    (dirname : string) (now now' : Z) (p p' : part) :
  (0 ≤ now)%Z → (0 ≤ now')%Z →
  path_join (st_destination (storage dirname) p)
    (st_filename (storage dirname) now p)
  = path_join (st_destination (storage dirname) p')
      (st_filename (storage dirname) now' p')
  ↔ now = now' ∧ part_originalname p = part_originalname p'.
Proof.
  intros Hnow Hnow'. cbn [storage st_destination st_filename].
  unfold path_join, timestamped. cbn [to_string]. split.
  - intros Heq. apply (inj (String.app _)) in Heq.
    rewrite !append_cons, !append_nil_l in Heq. injection Heq as Heq.
    apply digits_dash_split in Heq as [Heq ->];
      [|by apply pretty_clock_digits..].
    by apply (inj pretty) in Heq as ->.
  - by intros [-> ->].
Qed.

(** ** The local file routes

    The name in the address is taken to be a single path segment
    ([plain_segment]): that is when [path.join] of a directory and the name
    is the directory, a separator and the name, as [path_join] has it. *)

Module LocalFilesFacts.
Import LocalFiles.

Lemma existsSync_true (d : gmap string string) (p : string) :
  existsSync d p = true ↔ is_Some (d !! p).
Proof. apply bool_decide_eq_true. Qed.

Lemma existsSync_false (d : gmap string string) (p : string) :
  existsSync d p = false ↔ d !! p = None.
Proof.
  unfold existsSync. rewrite bool_decide_eq_false. symmetry.
  apply eq_None_not_Some.
Qed.

Lemma existsSync_insert_ne (d : gmap string string) (p q c : string) :
  p ≠ q → existsSync (<[p := c]> d) q = existsSync d q.
Proof. intros Hne. unfold existsSync. by rewrite lookup_insert_ne. Qed.

Lemma uploads_not_img (dirname f g : string) :
  path_join (uploadsDir dirname) f ≠ path_join (imgDir dirname) g.
Proof.
  intros Heq.
  destruct (in_uploadsDir dirname f) as [_ Hout].
  destruct (in_imgDir dirname g) as [Hin _].
  rewrite Heq in Hout. congruence.
Qed.

Lemma uploads_inj (dirname f g : string) :
  path_join (uploadsDir dirname) f = path_join (uploadsDir dirname) g →
  f = g.
Proof.
  unfold path_join. intros Heq. apply (inj (String.app _)) in Heq.
  by apply (inj (String.app _)) in Heq.
Qed.

Lemma located_cases (dirname fname : string) (d : gmap string string) :
  located dirname fname d =
    match d !! path_join (uploadsDir dirname) fname with
    | Some _ => Some (path_join (uploadsDir dirname) fname)
    | None =>
        match d !! path_join (imgDir dirname) fname with
        | Some _ => Some (path_join (imgDir dirname) fname)
        | None => None
        end
    end.
Proof.
  unfold located.
  destruct (d !! path_join (uploadsDir dirname) fname) as [c|] eqn:Hu.
  { assert (Eu : existsSync d (path_join (uploadsDir dirname) fname) = true)
      by (apply existsSync_true; by rewrite Hu).
    by rewrite Eu. }
  rewrite (proj2 (existsSync_false d _) Hu).
  destruct (d !! path_join (imgDir dirname) fname) as [c|] eqn:Hi.
  { assert (Ei : existsSync d (path_join (imgDir dirname) fname) = true)
      by (apply existsSync_true; by rewrite Hi).
    by rewrite Ei. }
  by rewrite (proj2 (existsSync_false d _) Hi).
Qed.

(** Each handler starts by locating the file. *)
Lemma locate_step (dirname fname : string) (d : gmap string string) :
  let filePath := path_join (uploadsDir dirname) fname in
  let filePath' :=
    if negb (existsSync d filePath) then path_join (imgDir dirname) fname
    else filePath in
  match located dirname fname d with
  | Some target => filePath' = target ∧ is_Some (d !! target)
  | None =>
      filePath' = path_join (imgDir dirname) fname
      ∧ d !! filePath' = None
  end.
Proof.
  cbn zeta. unfold located.
  destruct (existsSync d (path_join (uploadsDir dirname) fname)) eqn:Hu;
    cbn [negb].
  { split; [done|]. by apply existsSync_true. }
  destruct (existsSync d (path_join (imgDir dirname) fname)) eqn:Hi.
  { split; [done|]. by apply existsSync_true. }
  split; [done|]. by apply existsSync_false.
Qed.

Lemma get_file_run (dirname fname : string) (d : gmap string string) :
  get_file dirname fname d =
    match d !! path_join (uploadsDir dirname) fname with
    | Some c => SendFile (path_join (uploadsDir dirname) fname) c
    | None =>
        match d !! path_join (imgDir dirname) fname with
        | Some c => SendFile (path_join (imgDir dirname) fname) c
        | None => Status 404 "File not found."
        end
    end.
Proof.
  unfold get_file.
  destruct (d !! path_join (uploadsDir dirname) fname) as [c|] eqn:Hu.
  { assert (Eu : existsSync d (path_join (uploadsDir dirname) fname) = true)
      by (apply existsSync_true; by rewrite Hu).
    rewrite Eu. cbn [negb]. by rewrite Eu, Hu. }
  rewrite (proj2 (existsSync_false d _) Hu). cbn [negb].
  destruct (d !! path_join (imgDir dirname) fname) as [c|] eqn:Hi.
  { assert (Ei : existsSync d (path_join (imgDir dirname) fname) = true)
      by (apply existsSync_true; by rewrite Hi).
    by rewrite Ei. }
  by rewrite (proj2 (existsSync_false d _) Hi).
Qed.

Lemma delete_file_run (dirname fname : string) (d : gmap string string) :
  delete_file dirname fname d =
    match located dirname fname d with
    | Some target =>
        (Status 200 ("File " +:+ fname +:+ " deleted successfully."),
         delete target d)
    | None => (Status 404 "File not found.", d)
    end.
Proof.
  unfold delete_file, located, unlink.
  destruct (existsSync d (path_join (uploadsDir dirname) fname)) eqn:Hu;
    cbn [negb].
  { by rewrite Hu. }
  by destruct (existsSync d (path_join (imgDir dirname) fname)) eqn:Hi.
Qed.

Lemma located_insert_ne
    (dirname fname p c : string) (d : gmap string string) :
  p ≠ path_join (uploadsDir dirname) fname →
  p ≠ path_join (imgDir dirname) fname →
  located dirname fname (<[p := c]> d) = located dirname fname d.
Proof.
  intros Hu Hi. unfold located. by rewrite !existsSync_insert_ne.
Qed.

Lemma put_file_run
    (dirname fname : string) (now : Z) (s : sent) (d : gmap string string) :
  fieldname (meta s) = "file" →
  fname ≠ timestamped now (meta s) →
  put_file dirname (storage dirname) fname now (Some s) d =
    let staged := path_join (uploadsDir dirname) (timestamped now (meta s)) in
    match located dirname fname d with
    | Some target =>
        (Status 200 ("File " +:+ fname +:+ " updated successfully."),
         <[target := content s]> (delete staged d))
    | None =>
        (Status 404 "Original file not found for update.",
         <[staged := content s]> d)
    end.
Proof.
  intros Hfield Hname. cbn zeta.
  assert (Hsu : path_join (uploadsDir dirname) (timestamped now (meta s))
                ≠ path_join (uploadsDir dirname) fname).
  { intros Heq. by apply uploads_inj in Heq. }
  pose proof (uploads_not_img dirname (timestamped now (meta s)) fname)
    as Hsi.
  unfold put_file, stage. rewrite decide_True by done.
  cbn [storage st_destination st_filename path destination filename].
  set (staged := path_join (uploadsDir dirname) (timestamped now (meta s)))
    in *.
  pose proof (locate_step dirname fname (<[staged := content s]> d))
    as Hloc.
  cbn zeta in Hloc.
  rewrite (located_insert_ne dirname fname staged (content s) d Hsu Hsi)
    in Hloc.
  set (d0 := <[staged := content s]> d) in *.
  destruct (located dirname fname d) as [target|] eqn:Hl.
  - destruct Hloc as [-> Hsome].
    assert (Et : existsSync d0 target = true) by by apply existsSync_true.
    assert (Hts : target ≠ staged).
    { unfold located in Hl. repeat case_match; by simplify_eq. }
    unfold unlink. rewrite Et. unfold renameSync.
    rewrite lookup_delete_ne by done. unfold d0.
    rewrite lookup_insert_eq. f_equal.
    apply map_eq. intros k.
    destruct (decide (k = target)) as [->|Hkt].
    { by rewrite !lookup_insert_eq. }
    rewrite !(lookup_insert_ne _ target) by done.
    destruct (decide (k = staged)) as [->|Hks].
    { by rewrite !lookup_delete_eq. }
    rewrite !(lookup_delete_ne _ staged) by done.
    rewrite lookup_delete_ne by done. by rewrite lookup_insert_ne.
  - destruct Hloc as [-> Hnone].
    by rewrite (proj2 (existsSync_false d0 _) Hnone).
Qed.

(** X8.  [GET /file/:filename] serves the copy among the general files when
    there is one, whatever the images hold under that name; else the copy
    among the images; and answers 404 exactly when there is neither. *)
Theorem get_file_prefers_uploads
    (dirname fname : string) (d : gmap string string) :
  plain_segment fname = true →
  get_file dirname fname d =
    match d !! path_join (uploadsDir dirname) fname with
    | Some c => SendFile (path_join (uploadsDir dirname) fname) c
    | None =>
        match d !! path_join (imgDir dirname) fname with
        | Some c => SendFile (path_join (imgDir dirname) fname) c
        | None => Status 404 "File not found."
        end
    end.
Proof. intros _. apply get_file_run. Qed.

(** X9.  A file sent to [POST /upload/file] is answered with the name it
    was stored under, and [GET /file/] with that name serves the bytes that
    were sent; no other file changes. *)
Theorem uploaded_file_is_served
    (dirname : string) (now : Z) (s : sent) (d : gmap string string) :
  fieldname (meta s) = "file" →
  plain_segment (timestamped now (meta s)) = true →
  let stored := timestamped now (meta s) in
  let out := post_upload_file (storage dirname) now (Some s) d in
  fst out = Status 200 ("File uploaded successfully: " +:+ stored)
  ∧ get_file dirname stored (snd out)
    = SendFile (path_join (uploadsDir dirname) stored) (content s)
  ∧ ∀ q, q ≠ path_join (uploadsDir dirname) stored →
         snd out !! q = d !! q.
Proof.
  intros Hfield _. cbn zeta. unfold post_upload_file, stage.
  rewrite decide_True by done.
  cbn [storage st_destination st_filename path filename fst snd].
  split; [done|]. split.
  - by rewrite get_file_run, lookup_insert_eq.
  - intros q Hq. by rewrite lookup_insert_ne.
Qed.

(** X10.  An image sent to [POST /upload/image] of the local-only server is
    stored among the images.  [GET /file/] with the name reported serves it,
    unless a general file has that very name: then the general file is
    served and the image stays out of reach of the route. *)
Theorem uploaded_image_can_be_shadowed
    (dirname : string) (now : Z) (s : sent) (d : gmap string string) :
  fieldname (meta s) = "image" →
  plain_segment (timestamped now (meta s)) = true →
  let stored := timestamped now (meta s) in
  let out :=
    post_upload_image (LocalServer.imageStorage dirname) now (Some s) d in
  fst out = Status 200 ("Image uploaded successfully: " +:+ stored)
  ∧ snd out = <[path_join (imgDir dirname) stored := content s]> d
  ∧ get_file dirname stored (snd out) =
      match d !! path_join (uploadsDir dirname) stored with
      | Some general =>
          SendFile (path_join (uploadsDir dirname) stored) general
      | None => SendFile (path_join (imgDir dirname) stored) (content s)
      end.
Proof.
  intros Hfield _. cbn zeta. unfold post_upload_image, stage.
  rewrite decide_True by done.
  cbn [LocalServer.imageStorage st_destination st_filename path filename
       fst snd].
  split; [done|]. split; [done|].
  rewrite get_file_run.
  rewrite lookup_insert_ne by (intros Heq; by eapply uploads_not_img).
  destruct (d !! path_join (uploadsDir dirname) (timestamped now (meta s)));
    [done|].
  by rewrite lookup_insert_eq.
Qed.

(** X11.  [PUT /file/:filename] on a name that exists replaces the contents
    of the located copy by the bytes sent and keeps its path; the file staged
    for the request is gone, every other file is as before, and [GET] on the
    name now serves the new bytes. *)
Theorem put_file_replaces_contents
    (dirname fname : string) (now : Z) (s : sent) (d : gmap string string)
    (target : string) :
  plain_segment fname = true →
  fieldname (meta s) = "file" →
  fname ≠ timestamped now (meta s) →
  located dirname fname d = Some target →
  let staged := path_join (uploadsDir dirname) (timestamped now (meta s)) in
  let out := put_file dirname (storage dirname) fname now (Some s) d in
  fst out = Status 200 ("File " +:+ fname +:+ " updated successfully.")
  ∧ snd out = <[target := content s]> (delete staged d)
  ∧ get_file dirname fname (snd out) = SendFile target (content s).
Proof.
  intros _ Hfield Hname Hloc. cbn zeta.
  rewrite put_file_run by done. cbn zeta. rewrite Hloc.
  cbn [fst snd]. split; [done|]. split; [done|].
  rewrite get_file_run. rewrite located_cases in Hloc.
  destruct (d !! path_join (uploadsDir dirname) fname) as [c|] eqn:Hu.
  - injection Hloc as <-. by rewrite lookup_insert_eq.
  - destruct (d !! path_join (imgDir dirname) fname) as [c|] eqn:Hi;
      [|done].
    injection Hloc as <-.
    rewrite lookup_insert_ne by (intros Heq; by eapply uploads_not_img).
    rewrite lookup_delete_ne
      by (intros Heq; apply uploads_inj in Heq; by rewrite Heq in Hname).
    by rewrite Hu, lookup_insert_eq.
Qed.

(** X12.  [PUT /file/:filename] without a file part answers 400 and changes
    nothing, whether or not the name exists and whatever the storage.  With
    a file part, on a name that exists in neither directory and is not the
    name the part is staged under, it answers 404 and leaves behind the file
    it staged for the request. *)
Theorem put_file_missing_target
    (dirname fname : string) (now : Z) (s : sent) (d : gmap string string) :
  (∀ engine : StorageEngine,
     put_file dirname engine fname now None d
     = (Status 400 "No file provided for update.", d))
  ∧ (plain_segment fname = true →
     fieldname (meta s) = "file" →
     fname ≠ timestamped now (meta s) →
     located dirname fname d = None →
     put_file dirname (storage dirname) fname now (Some s) d
     = (Status 404 "Original file not found for update.",
        <[path_join (uploadsDir dirname) (timestamped now (meta s))
            := content s]> d)).
Proof.
  split; [done|]. intros _ Hfield Hname Hloc.
  rewrite put_file_run by done. cbn zeta. by rewrite Hloc.
Qed.

(** X13.  [PUT /file/:filename] on the very name under which the request's
    own file is staged fails: the handler finds the staged file, removes it
    as the old one, and the move that follows has nothing to move.  The
    request ends in the framework's error handler and no file is left under
    that name, even if there was one before. *)
Theorem put_file_on_own_staging_name
    (dirname : string) (now : Z) (s : sent) (d : gmap string string) :
  fieldname (meta s) = "file" →
  plain_segment (timestamped now (meta s)) = true →
  let fname := timestamped now (meta s) in
  let staged := path_join (uploadsDir dirname) fname in
  put_file dirname (storage dirname) fname now (Some s) d
  = (Uncaught (ENOENT staged), delete staged d).
Proof.
  intros Hfield _. cbn zeta. unfold put_file, stage.
  rewrite decide_True by done.
  cbn [storage st_destination st_filename path destination filename].
  set (staged := path_join (uploadsDir dirname) (timestamped now (meta s))).
  assert (Es : existsSync (<[staged := content s]> d) staged = true).
  { apply existsSync_true. by rewrite lookup_insert_eq. }
  rewrite Es. cbn [negb]. rewrite Es. unfold unlink. rewrite Es.
  unfold renameSync. rewrite lookup_delete_eq.
  by rewrite delete_insert_eq.
Qed.


(** X15.  When a name exists in both directories, one [DELETE] removes the
    general copy only; [GET] then serves the image copy, a second [DELETE]
    removes that one, and from then on both routes answer 404. *)
Theorem delete_file_uncovers_image_copy
    (dirname fname general image : string) (d : gmap string string) :
  plain_segment fname = true →
  d !! path_join (uploadsDir dirname) fname = Some general →
  d !! path_join (imgDir dirname) fname = Some image →
  let d1 := snd (delete_file dirname fname d) in
  let d2 := snd (delete_file dirname fname d1) in
  d1 = delete (path_join (uploadsDir dirname) fname) d
  ∧ get_file dirname fname d1
    = SendFile (path_join (imgDir dirname) fname) image
  ∧ d2 = delete (path_join (imgDir dirname) fname) d1
  ∧ get_file dirname fname d2 = Status 404 "File not found."
  ∧ delete_file dirname fname d2 = (Status 404 "File not found.", d2).
Proof.
  intros _ Hu Hi. cbn zeta.
  pose proof (uploads_not_img dirname fname fname) as Hne.
  assert (H1 : snd (delete_file dirname fname d)
               = delete (path_join (uploadsDir dirname) fname) d).
  { rewrite delete_file_run, located_cases. by rewrite Hu. }
  rewrite H1.
  set (d1 := delete (path_join (uploadsDir dirname) fname) d).
  assert (Hu1 : d1 !! path_join (uploadsDir dirname) fname = None)
    by apply lookup_delete_eq.
  assert (Hi1 : d1 !! path_join (imgDir dirname) fname = Some image).
  { unfold d1. by rewrite lookup_delete_ne. }
  assert (H2 : snd (delete_file dirname fname d1)
               = delete (path_join (imgDir dirname) fname) d1).
  { rewrite delete_file_run, located_cases. by rewrite Hu1, Hi1. }
  rewrite H2.
  set (d2 := delete (path_join (imgDir dirname) fname) d1).
  assert (Hu2 : d2 !! path_join (uploadsDir dirname) fname = None).
  { unfold d2. by rewrite lookup_delete_ne. }
  assert (Hi2 : d2 !! path_join (imgDir dirname) fname = None)
    by apply lookup_delete_eq.
  split; [done|]. split; [by rewrite get_file_run, Hu1, Hi1|].
  split; [done|]. split; [by rewrite get_file_run, Hu2, Hi2|].
  rewrite delete_file_run, located_cases. by rewrite Hu2, Hi2.
Qed.

End LocalFilesFacts.

(** ** The two views of staging agree *)

(** Staging with contents and staging on bare paths end alike: the same file
    record or the same refusal, and the same set of paths on disk. *)
Lemma stage_shadows_single
    {D : Type} (st : StorageEngine) (field : string) (now : Z)
    (s : option LocalFiles.sent) (d : gmap string string) (w : world D) :
  dom d = fs w →
  fst (LocalFiles.stage st field now s d)
  = fst (single st field now (LocalFiles.meta <$> s) w)
  ∧ dom (snd (LocalFiles.stage st field now s d))
    = fs (snd (single st field now (LocalFiles.meta <$> s) w)).
Proof.
  intros Hdom. unfold LocalFiles.stage, single.
  destruct s as [s|]; cbn; [|done].
  destruct (decide _); cbn; [|done].
  split; [done|]. rewrite dom_insert_L. set_solver.
Qed.

(** ** The further theorems at work on sample requests *)

Lemma plain_routes_hide_backend_errors_witness :
  fst (serve (GetMetadata "f7") Sample.stocked)
  = Http 500 (Send "Failed to get file metadata from Drive.").
Proof.
  eapply (plain_routes_hide_backend_errors (GetMetadata "f7") Sample.stocked).
  - reflexivity.
  - vm_compute. reflexivity.
Defined.

Lemma listing_filter_by_truthiness_witness :
  calls_of
    (new_events Sample.stocked
       (snd (getAllFilesFromDrive (VStr "") Sample.stocked)))
  = [FilesList "mimeType != 'application/vnd.google-apps.folder'"
       "files(id, name, mimeType, webViewLink, webContentLink)"]
  ∧ calls_of
      (new_events Sample.stocked
         (snd (getAllFilesFromDrive (VStr "image/png") Sample.stocked)))
    = [FilesList "mimeType = 'image/png'"
         "files(id, name, mimeType, webViewLink, webContentLink)"].
Proof.
  split.
  - apply (proj1 (listing_filter_by_truthiness (D := SimDrive.t))).
    reflexivity.
  - apply (proj2 (listing_filter_by_truthiness (D := SimDrive.t))
             "image/png").
    discriminate.
Defined.

Lemma upload_grant_failure_is_not_undone_witness :
  fst (uploadFileToDrive Sample.photo_file (VStr "image/png") VUndefined
         Sample.private_world)
  = inl (ApiError (ApiErr 403 "Sharing is not allowed"))
  ∧ length
      (SimDrive.store
         (drive
            (snd (uploadFileToDrive Sample.photo_file (VStr "image/png")
                    VUndefined Sample.private_world)))) = 1%nat.
Proof.
  split.
  - eapply (upload_grant_failure_is_not_undone Sample.photo_file
              (VStr "image/png") VUndefined Sample.private_world).
    + vm_compute. reflexivity.
    + vm_compute. reflexivity.
  - edestruct (upload_grant_failure_is_not_undone Sample.photo_file
                 (VStr "image/png") VUndefined Sample.private_world)
      as (_ & _ & -> & _).
    + vm_compute. reflexivity.
    + vm_compute. reflexivity.
    + reflexivity.
Defined.

Lemma put_drive_route_outcome_witness :
  calls_of
    (new_events Sample.stocked
       (snd (put_drive_file "/app" "f0" 18
               (Some (Part "file" "b.txt" "text/plain")) Sample.stocked)))
  = [FilesUpdate "f0"
       {| name := VStr "b.txt"; mimeType := VStr "text/plain";
          parents := None |}
       (Some {| media_mimeType := VStr "text/plain";
                body := "/app/uploads/18-b.txt" |})
       "id, name"].
Proof.
  exact (proj1 (put_drive_route_outcome "/app" "f0" 18
                  (Part "file" "b.txt" "text/plain") Sample.stocked
                  eq_refl)).
Defined.

Lemma drive_upload_routes_outcome_witness :
  "/app/uploads/17-photo.png"
    ∉ fs (snd (post_drive_upload_image "/app" 17 (Some Sample.photo)
                 Sample.fresh)).
Proof.
  pose proof (proj1 (drive_upload_routes_outcome "/app" 17 Sample.photo
                       Sample.fresh) eq_refl) as Hout.
  cbn zeta in Hout.
  change (fst (remote_push
                 (Upload
                    (MkFile "photo.png" "image/png" (uploadsDir "/app")
                       (timestamped 17 Sample.photo)
                       (path_join (uploadsDir "/app")
                          (timestamped 17 Sample.photo)))
                    (VStr "image/png") VUndefined)
                 (drive Sample.fresh)))
    with (@inr api_error response
            (Response 200
               (Data (SimDrive.project "id, name"
                        (SimDrive.new_file "f0"
                           (Resource (VStr "photo.png") (VStr "image/png")
                              (Some []))))
                  None))) in Hout.
  exact (proj2 Hout).
Defined.

Lemma staged_paths_collide_iff_witness :
  path_join (st_destination (storage "/app") Sample.photo)
    (st_filename (storage "/app") 17 Sample.photo)
  = path_join
      (st_destination (storage "/app") (Part "file" "photo.png" "text/plain"))
      (st_filename (storage "/app") 17 (Part "file" "photo.png" "text/plain")).
Proof.
  apply (staged_paths_collide_iff "/app" 17 17 Sample.photo
           (Part "file" "photo.png" "text/plain")); [lia|lia|].
  split; reflexivity.
Defined.

Lemma get_file_prefers_uploads_witness :
  LocalFiles.get_file "/app" "note.txt" LocalFiles.shelf
  = LocalFiles.SendFile "/app/uploads/note.txt" "general note".
Proof.
  rewrite (LocalFilesFacts.get_file_prefers_uploads "/app" "note.txt"
             LocalFiles.shelf eq_refl).
  vm_compute. reflexivity.
Defined.

Lemma uploaded_file_is_served_witness :
  LocalFiles.get_file "/app" "18-new.txt"
    (snd (LocalFiles.post_upload_file (storage "/app") 18
            (Some LocalFiles.revised) LocalFiles.shelf))
  = LocalFiles.SendFile "/app/uploads/18-new.txt" "q4 figures".
Proof.
  exact (proj1 (proj2 (LocalFilesFacts.uploaded_file_is_served "/app" 18
                         LocalFiles.revised LocalFiles.shelf
                         eq_refl eq_refl))).
Defined.

Lemma uploaded_image_can_be_shadowed_witness :
  LocalFiles.get_file "/app" "18-logo.png"
    (snd (LocalFiles.post_upload_image (LocalServer.imageStorage "/app") 18
            (Some (LocalFiles.Sent (Part "image" "logo.png" "image/png")
                     "new logo"))
            (<["/app/uploads/18-logo.png" := "a general file"]>
               LocalFiles.shelf)))
  = LocalFiles.SendFile "/app/uploads/18-logo.png" "a general file".
Proof.
  pose proof (LocalFilesFacts.uploaded_image_can_be_shadowed "/app" 18
                (LocalFiles.Sent (Part "image" "logo.png" "image/png")
                   "new logo")
                (<["/app/uploads/18-logo.png" := "a general file"]>
                   LocalFiles.shelf)
                eq_refl eq_refl) as (_ & _ & Hget).
  etrans; [exact Hget|]. vm_compute. reflexivity.
Defined.

Lemma put_file_replaces_contents_witness :
  LocalFiles.get_file "/app" "report.txt"
    (snd (LocalFiles.put_file "/app" (storage "/app") "report.txt" 18
            (Some LocalFiles.revised) LocalFiles.shelf))
  = LocalFiles.SendFile "/app/uploads/report.txt" "q4 figures".
Proof.
  refine (proj2 (proj2 (LocalFilesFacts.put_file_replaces_contents "/app"
                          "report.txt" 18 LocalFiles.revised
                          LocalFiles.shelf "/app/uploads/report.txt"
                          eq_refl eq_refl _ _))).
  - discriminate.
  - vm_compute. reflexivity.
Defined.

Lemma put_file_missing_target_witness :
  fst (LocalFiles.put_file "/app" (storage "/app") "absent.txt" 18
         (Some LocalFiles.revised) LocalFiles.shelf)
  = LocalFiles.Status 404 "Original file not found for update."
  ∧ LocalFiles.existsSync
      (snd (LocalFiles.put_file "/app" (storage "/app") "absent.txt" 18
              (Some LocalFiles.revised) LocalFiles.shelf))
      "/app/uploads/18-new.txt" = true
  ∧ LocalFiles.put_file "/app" (storage "/app") "report.txt" 18 None
      LocalFiles.shelf
    = (LocalFiles.Status 400 "No file provided for update.",
       LocalFiles.shelf).
Proof.
  assert (Hput :
    LocalFiles.put_file "/app" (storage "/app") "absent.txt" 18
      (Some LocalFiles.revised) LocalFiles.shelf
    = (LocalFiles.Status 404 "Original file not found for update.",
       <[path_join (uploadsDir "/app")
           (timestamped 18 (LocalFiles.meta LocalFiles.revised))
           := LocalFiles.content LocalFiles.revised]> LocalFiles.shelf)).
  { refine (proj2 (LocalFilesFacts.put_file_missing_target "/app"
                     "absent.txt" 18 LocalFiles.revised LocalFiles.shelf)
              eq_refl eq_refl _ _).
    - discriminate.
    - vm_compute. reflexivity. }
  rewrite Hput. split; [reflexivity|]. split; [vm_compute; reflexivity|].
  exact (proj1 (LocalFilesFacts.put_file_missing_target "/app" "report.txt"
                  18 LocalFiles.revised LocalFiles.shelf)
           (storage "/app")).
Defined.

Lemma put_file_on_own_staging_name_witness :
  LocalFiles.put_file "/app" (storage "/app") "18-new.txt" 18
    (Some LocalFiles.revised)
    (<["/app/uploads/18-new.txt" := "an older file"]> LocalFiles.shelf)
  = (LocalFiles.Uncaught (ENOENT "/app/uploads/18-new.txt"),
     delete "/app/uploads/18-new.txt"
       (<["/app/uploads/18-new.txt" := "an older file"]> LocalFiles.shelf)).
Proof.
  exact (LocalFilesFacts.put_file_on_own_staging_name "/app" 18
           LocalFiles.revised
           (<["/app/uploads/18-new.txt" := "an older file"]> LocalFiles.shelf)
           eq_refl eq_refl).
Defined.


Lemma delete_file_uncovers_image_copy_witness :
  LocalFiles.get_file "/app" "note.txt"
    (snd (LocalFiles.delete_file "/app" "note.txt" LocalFiles.shelf))
  = LocalFiles.SendFile "/app/img/note.txt" "image note".
Proof.
  refine (proj1 (proj2 (LocalFilesFacts.delete_file_uncovers_image_copy
                          "/app" "note.txt" "general note" "image note"
                          LocalFiles.shelf eq_refl _ _))).
  - vm_compute. reflexivity.
  - vm_compute. reflexivity.
Defined.

(** ** What the upload routes ask of the backend *)

Section UploadCalls.
Context {D : Type} `{Drive D}.

Lemma upload_route_calls
    (field : string) (ok : data → http_response) (ko0 ko : http_response)
    (dirname : string) (now : Z) (prt : part) (w : world D) (c : call) :
  Invoke c ∈
    new_events w
      (snd (route (upload dirname field now (Some prt)) (fun req_file =>
              match req_file with
              | None => ret ko0
              | Some file =>
                  try_catch
                    (let* result :=
                       uploadFileToDrive file (VStr (mimetype file))
                         VUndefined in
                     ret (ok result))
                    (fun _ => ret ko)
              end) w)) →
  c = FilesCreate
        {| name := VStr (part_originalname prt);
           mimeType := VStr (part_mimetype prt);
           parents := Some [] |}
        (Some {| media_mimeType := VStr (part_mimetype prt);
                 body := path_join (uploadsDir dirname)
                           (timestamped now prt) |})
        "id, name"
  ∨ ∃ v, c = PermissionsCreate v "reader" "anyone".
Proof.
  unfold route, upload, single, new_events.
  destruct (decide (fieldname prt = field)) as [Hf|Hf]; cbn.
  2: { rewrite drop_all. set_solver. }
  unfold try_catch, bind. rewrite uploadFileToDrive_run. cbn zeta.
  unfold create_call, grant_call.
  cbn [path originalname mimetype storage st_destination st_filename truthy].
  repeat split_request; repeat split_decide; cbn;
    rewrite <- app_assoc, drop_app_length; intros Hin;
    repeat (apply elem_of_cons in Hin as [Hin|Hin];
            [first [discriminate Hin
                   |injection Hin as ->; by eauto]|]);
    by apply elem_of_nil in Hin.
Qed.

(** X17.  Whatever is sent to the two Drive upload routes, the only calls
    they make are one creation, of a file named and typed as the part was,
    fed from the staged file and placed in no folder, and a grant of role
    [reader] to [anyone]: the routes offer no way to upload into a folder or
    to share otherwise. *)
Theorem drive_upload_routes_calls
    (dirname : string) (now : Z) (prt : part) (w : world D) (c : call) :
  Invoke c ∈
    new_events w (snd (post_drive_upload_image dirname now (Some prt) w))
  ∨ Invoke c ∈
    new_events w (snd (post_drive_upload_file dirname now (Some prt) w)) →
  c = FilesCreate
        {| name := VStr (part_originalname prt);
           mimeType := VStr (part_mimetype prt);
           parents := Some [] |}
        (Some {| media_mimeType := VStr (part_mimetype prt);
                 body := path_join (uploadsDir dirname)
                           (timestamped now prt) |})
        "id, name"
  ∨ ∃ v, c = PermissionsCreate v "reader" "anyone".
Proof.
  unfold post_drive_upload_image, post_drive_upload_file.
  intros [Hin|Hin]; by apply upload_route_calls in Hin.
Qed.

End UploadCalls.

Lemma drive_upload_routes_calls_witness :
  PermissionsCreate (VStr "f0") "reader" "anyone"
  = FilesCreate
      {| name := VStr "photo.png"; mimeType := VStr "image/png";
         parents := Some [] |}
      (Some {| media_mimeType := VStr "image/png";
               body := path_join (uploadsDir "/app")
                         (timestamped 17 Sample.photo) |})
      "id, name"
  ∨ ∃ v, PermissionsCreate (VStr "f0") "reader" "anyone"
         = PermissionsCreate v "reader" "anyone".
Proof.
  apply (drive_upload_routes_calls (D := SimDrive.t) "/app" 17 Sample.photo
           Sample.fresh).
  left. vm_compute. do 4 apply list_elem_of_further. apply list_elem_of_here.
Defined.
